(** * A shallow embedding of the pst-extractor service (services/pst-extractor/src/main.rs)

    Rust strings are modelled as lists of Unicode scalar values ([rstr]);
    their UTF-8 byte length is computed from the width of each scalar value,
    so that byte-indexed operations ([str::find], slicing, [String::truncate])
    can be modelled together with their panics (a panic is [None]).
    Byte buffers ([&[u8]]) are lists of [Z] in [0, 256). *)

From Stdlib Require Import String Ascii.
From Stdlib Require Import ZArith List Bool Lia.
Import ListNotations.
Open Scope Z_scope.

(* ------------------------------------------------------------------ *)
(** ** Rust strings and chars *)

Module RStr.

Definition rchar := Z.
Definition rstr := list rchar.

(** A string literal made of ASCII characters. *)
Definition of_string (s : String.string) : rstr :=
  map (fun a => Z.of_nat (Ascii.nat_of_ascii a)) (String.list_ascii_of_string s).
Arguments of_string s%_string.

(** UTF-8 encoding of one scalar value ([char::encode_utf8]). *)
Definition utf8_char (c : rchar) : list Z :=
  if c <? 0x80 then [c]
  else if c <? 0x800 then
    [Z.lor 0xC0 (Z.shiftr c 6); Z.lor 0x80 (Z.land c 0x3F)]
  else if c <? 0x10000 then
    [Z.lor 0xE0 (Z.shiftr c 12); Z.lor 0x80 (Z.land (Z.shiftr c 6) 0x3F);
     Z.lor 0x80 (Z.land c 0x3F)]
  else
    [Z.lor 0xF0 (Z.shiftr c 18); Z.lor 0x80 (Z.land (Z.shiftr c 12) 0x3F);
     Z.lor 0x80 (Z.land (Z.shiftr c 6) 0x3F); Z.lor 0x80 (Z.land c 0x3F)].

(** [str::as_bytes] *)
Definition as_bytes (s : rstr) : list Z := flat_map utf8_char s.

(** [char::len_utf8] and [str::len] (a length in bytes). *)
Definition len_utf8 (c : rchar) : nat := length (utf8_char c).
Definition len (s : rstr) : nat := length (as_bytes s).

(** The character index at byte offset [n], when [n] is a char boundary
    inside the string or its end ([str::is_char_boundary]); [None] otherwise. *)
Fixpoint char_index (s : rstr) (n : nat) : option nat :=
  match n with
  | O => Some O
  | _ =>
      match s with
      | [] => None
      | c :: s' =>
          if Nat.ltb n (len_utf8 c) then None
          else option_map S (char_index s' (n - len_utf8 c))
      end
  end.

(** [&s[a..b]]: panics ([None]) unless [a <= b] and both are char boundaries. *)
Definition slice (s : rstr) (a b : nat) : option rstr :=
  match char_index s a, char_index s b with
  | Some i, Some j => if Nat.leb i j then Some (firstn (j - i) (skipn i s)) else None
  | _, _ => None
  end.

(** [&s[..b]] *)
Definition slice_to (s : rstr) (b : nat) : option rstr := slice s 0 b.

(** [String::truncate(new_len)]: no effect when [new_len >= len], and a panic
    when [new_len] is not a char boundary. *)
Definition truncate (new_len : nat) (s : rstr) : option rstr :=
  if Nat.leb (len s) new_len then Some s
  else match char_index s new_len with
       | Some k => Some (firstn k s)
       | None => None
       end.

(** [str::find(c)]: the byte offset of the first occurrence of [c]. *)
Fixpoint find (c : rchar) (s : rstr) : option nat :=
  match s with
  | [] => None
  | d :: s' =>
      if d =? c then Some O
      else option_map (fun k => (len_utf8 d + k)%nat) (find c s')
  end.

(** [char::is_whitespace] (the Unicode White_Space property). *)
Definition is_whitespace (c : rchar) : bool :=
  ((9 <=? c) && (c <=? 13)) || (c =? 32) || (c =? 0x85) || (c =? 0xA0)
  || (c =? 0x1680) || ((0x2000 <=? c) && (c <=? 0x200A))
  || (c =? 0x2028) || (c =? 0x2029) || (c =? 0x202F) || (c =? 0x205F)
  || (c =? 0x3000).

Fixpoint trim_start_matches (p : rchar -> bool) (s : rstr) : rstr :=
  match s with
  | [] => []
  | c :: s' => if p c then trim_start_matches p s' else s
  end.

Definition trim_end_matches (p : rchar -> bool) (s : rstr) : rstr :=
  rev (trim_start_matches p (rev s)).

(** [str::trim_matches] with a predicate; [str::trim], [str::trim_start]. *)
Definition trim_matches (p : rchar -> bool) (s : rstr) : rstr :=
  trim_end_matches p (trim_start_matches p s).
Definition trim (s : rstr) : rstr := trim_matches is_whitespace s.
Definition trim_start (s : rstr) : rstr := trim_start_matches is_whitespace s.

(** [char::is_ascii_alphanumeric], [char::to_ascii_lowercase] *)
Definition is_ascii_alphanumeric (c : rchar) : bool :=
  ((48 <=? c) && (c <=? 57)) || ((65 <=? c) && (c <=? 90)) || ((97 <=? c) && (c <=? 122)).
Definition char_to_ascii_lowercase (c : rchar) : rchar :=
  if (65 <=? c) && (c <=? 90) then c + 32 else c.
Definition to_ascii_lowercase (s : rstr) : rstr := map char_to_ascii_lowercase s.

(** [str::starts_with], [str::contains] with a string pattern. *)
Fixpoint starts_with (s p : rstr) : bool :=
  match p, s with
  | [], _ => true
  | c :: p', d :: s' => (c =? d) && starts_with s' p'
  | _ :: _, [] => false
  end.

Fixpoint contains (s p : rstr) : bool :=
  match s with
  | [] => starts_with [] p
  | _ :: s' => starts_with s p || contains s' p
  end.

(** [str::replace(c, r)] for a char pattern. *)
Definition replace_char (c : rchar) (r : rstr) (s : rstr) : rstr :=
  flat_map (fun d => if d =? c then r else [d]) s.

(** [str::is_empty] *)
Definition is_empty (s : rstr) : bool :=
  match s with [] => true | _ => false end.

End RStr.
Import RStr.

(* ------------------------------------------------------------------ *)
(** ** SHA-256 (FIPS 180-4), the [sha2] crate's [Sha256] digest *)

Module Sha256.

Definition mask32 : Z := Z.ones 32.
Definition add32 (x y : Z) : Z := Z.land (x + y) mask32.
Definition rotr (n x : Z) : Z :=
  Z.lor (Z.shiftr x n) (Z.land (Z.shiftl x (32 - n)) mask32).
Definition shr (n x : Z) : Z := Z.shiftr x n.

Definition ch (e f g : Z) : Z := Z.lxor (Z.land e f) (Z.land (Z.lxor e mask32) g).
Definition maj (a b c : Z) : Z :=
  Z.lxor (Z.lxor (Z.land a b) (Z.land a c)) (Z.land b c).
Definition bsig0 (x : Z) : Z := Z.lxor (Z.lxor (rotr 2 x) (rotr 13 x)) (rotr 22 x).
Definition bsig1 (x : Z) : Z := Z.lxor (Z.lxor (rotr 6 x) (rotr 11 x)) (rotr 25 x).
Definition ssig0 (x : Z) : Z := Z.lxor (Z.lxor (rotr 7 x) (rotr 18 x)) (shr 3 x).
Definition ssig1 (x : Z) : Z := Z.lxor (Z.lxor (rotr 17 x) (rotr 19 x)) (shr 10 x).

(** The first 64 primes. *)
Definition is_prime (n : Z) : bool :=
  (1 <? n) && forallb (fun d => negb (n mod d =? 0))
                      (map Z.of_nat (seq 2 (Z.to_nat (Z.sqrt n) - 1))).
Definition primes : list Z := firstn 64 (filter is_prime (map Z.of_nat (seq 2 400))).

(** Integer cube root, by binary search over the bits of the result. *)
Fixpoint cbrt_go (b : nat) (r x : Z) : Z :=
  let c := r + 2 ^ Z.of_nat b in
  let r' := if c ^ 3 <=? x then c else r in
  match b with
  | O => r'
  | S b' => cbrt_go b' r' x
  end.
Definition icbrt (x : Z) : Z := cbrt_go 48 0 x.

(** Round constants: the first 32 bits of the fractional parts of the cube
    roots of the first 64 primes. *)
Definition K : list Z := map (fun p => icbrt (p * 2 ^ 96) mod 2 ^ 32) primes.

Record hstate := HS { ha : Z; hb : Z; hc : Z; hd : Z; he : Z; hf : Z; hg : Z; hh : Z }.

(** Initial hash value: the first 32 bits of the fractional parts of the
    square roots of the first 8 primes. *)
Definition H0 : hstate :=
  let h i := Z.sqrt (nth i primes 0 * 2 ^ 64) mod 2 ^ 32 in
  HS (h 0%nat) (h 1%nat) (h 2%nat) (h 3%nat) (h 4%nat) (h 5%nat) (h 6%nat) (h 7%nat).

(** Big-endian conversions between bytes and 32/64-bit words. *)
Definition be_word (bs : list Z) : Z :=
  fold_left (fun acc b => Z.lor (Z.shiftl acc 8) b) bs 0.
Definition be_bytes (n : nat) (w : Z) : list Z :=
  map (fun i => Z.land (Z.shiftr w (8 * Z.of_nat (n - 1 - i))) 0xFF) (seq 0 n).

(** Padding: [0x80], zeros, then the message length in bits as a 64-bit word. *)
Definition pad (msg : list Z) : list Z :=
  let l := Z.of_nat (length msg) in
  msg ++ [0x80] ++ repeat 0 (Z.to_nat ((55 - l) mod 64)) ++ be_bytes 8 (8 * l).

Fixpoint chunks (fuel : nat) (n : nat) (l : list Z) : list (list Z) :=
  match fuel with
  | O => []
  | S f => match l with [] => [] | _ => firstn n l :: chunks f n (skipn n l) end
  end.

(** The message schedule W0..W63 of one 64-byte block. *)
Definition schedule (block : list Z) : list Z :=
  let w16 := map be_word (chunks 16 4 block) in
  fold_left
    (fun ws t =>
       ws ++ [add32 (add32 (ssig1 (nth (t - 2) ws 0)) (nth (t - 7) ws 0))
                    (add32 (ssig0 (nth (t - 15) ws 0)) (nth (t - 16) ws 0))])
    (seq 16 48) w16.

Definition round (s : hstate) (kw : Z * Z) : hstate :=
  let (k, w) := kw in
  let t1 := add32 (add32 (add32 (hh s) (bsig1 (he s))) (add32 (ch (he s) (hf s) (hg s)) k)) w in
  let t2 := add32 (bsig0 (ha s)) (maj (ha s) (hb s) (hc s)) in
  HS (add32 t1 t2) (ha s) (hb s) (hc s) (add32 (hd s) t1) (he s) (hf s) (hg s).

Definition compress (s : hstate) (block : list Z) : hstate :=
  let s' := fold_left round (combine K (schedule block)) s in
  HS (add32 (ha s) (ha s')) (add32 (hb s) (hb s')) (add32 (hc s) (hc s'))
     (add32 (hd s) (hd s')) (add32 (he s) (he s')) (add32 (hf s) (hf s'))
     (add32 (hg s) (hg s')) (add32 (hh s) (hh s')).

(** [Sha256::new().update(msg).finalize()]: 32 bytes. *)
Definition sha256 (msg : list Z) : list Z :=
  let p := pad msg in
  let s := fold_left compress (chunks (length p) 64 p) H0 in
  flat_map (be_bytes 4) [ha s; hb s; hc s; hd s; he s; hf s; hg s; hh s].

End Sha256.

(* ------------------------------------------------------------------ *)
(** ** [stable_uuid] *)

(** [bytes[i] = v] on a fixed-size array. *)
Fixpoint set_nth {A} (i : nat) (v : A) (l : list A) : list A :=
  match l, i with
  | [], _ => []
  | _ :: l', O => v :: l'
  | x :: l', S i' => x :: set_nth i' v l'
  end.

(** [stable_uuid(seed)]: the 16 bytes handed to [Uuid::from_bytes].
    [digest[..16]] is in bounds: the digest has 32 bytes. *)
Definition stable_uuid (seed : rstr) : list Z :=
  let digest := Sha256.sha256 (as_bytes seed) in
  let bytes := firstn 16 digest in
  let bytes := set_nth 6 (Z.lor (Z.land (nth 6 bytes 0) 0x0F) 0x50) bytes in
  let bytes := set_nth 8 (Z.lor (Z.land (nth 8 bytes 0) 0x3F) 0x80) bytes in
  bytes.

(* ------------------------------------------------------------------ *)
(** ** String helpers used by the extractor *)

(** [str::split(c)] *)
Fixpoint split_on (c : rchar) (s : rstr) : list rstr :=
  match s with
  | [] => [[]]
  | d :: s' =>
      if d =? c then [] :: split_on c s'
      else match split_on c s' with
           | [] => [[d]]
           | x :: xs => (d :: x) :: xs
           end
  end.

(** [str::splitn(2, c)]: the text before the first [c] and, when there is
    one, the text after it. *)
Fixpoint splitn2 (c : rchar) (s : rstr) : rstr * option rstr :=
  match s with
  | [] => ([], None)
  | d :: s' =>
      if d =? c then ([], Some s')
      else let '(a, b) := splitn2 c s' in (d :: a, b)
  end.

Definition rstr_eqb (a b : rstr) : bool :=
  if list_eq_dec Z.eq_dec a b then true else false.

Definition unwrap_or_default (o : option rstr) : rstr :=
  match o with Some s => s | None => [] end.

Definition is_char (c : rchar) : rchar -> bool := fun d => d =? c.

(* ------------------------------------------------------------------ *)
(** ** [sanitize_filename], [parse_sender] *)

Definition sanitize_filename (value fallback : rstr) : option rstr :=
  let name := trim value in
  let name := if is_empty name then fallback else name in
  let name := replace_char 10 [] (replace_char 13 [] (replace_char 0 []
               (replace_char 47 (of_string "_") (replace_char 92 (of_string "_") name)))) in
  if Nat.ltb 200 (len name) then truncate 200 name else Some name.

(** [parse_sender]; [None] is a panic (an out-of-order slice). *)
Definition parse_sender (from_header : rstr) : option (option rstr * option rstr) :=
  let text := trim from_header in
  let fallback :=
    if contains text (of_string "@") then Some (Some text, None) else Some (None, Some text) in
  if is_empty text then Some (None, None) else
  match find 60 text with
  | Some start =>
      match find 62 text with
      | Some end_ =>
          match slice text (S start) end_ with
          | None => None
          | Some e =>
              match slice_to text start with
              | None => None
              | Some n =>
                  let email := trim e in
                  let name := trim_matches (is_char 39) (trim_matches (is_char 34) (trim n)) in
                  Some (if is_empty email then None else Some email,
                        if is_empty name then None else Some name)
              end
          end
      | None => fallback
      end
  | None => fallback
  end.

(* ------------------------------------------------------------------ *)
(** ** [parse_param] *)

(** The loop of [parse_param] over the parameters after the first [;];
    [iter.next()?] returns [None] from the whole function. *)
Fixpoint parse_param_loop (parts : list rstr) (key_l : rstr) : option rstr :=
  match parts with
  | [] => None
  | part :: rest =>
      let p := trim part in
      if is_empty p then parse_param_loop rest key_l else
      let '(k0, v0) := splitn2 61 p in
      let k := to_ascii_lowercase (trim k0) in
      match v0 with
      | None => None
      | Some v1 =>
          let v := trim v1 in
          if negb (rstr_eqb k key_l) then parse_param_loop rest key_l else
          let unquoted := trim (trim_matches (is_char 39) (trim_matches (is_char 34) v)) in
          if is_empty unquoted then None else Some unquoted
      end
  end.

Definition parse_param (header_value key : rstr) : option rstr :=
  parse_param_loop (skipn 1 (split_on 59 header_value)) (to_ascii_lowercase key).

(* ------------------------------------------------------------------ *)
(** ** Parsed MIME messages ([mailparse::ParsedMail]) *)

(** A parsed part: its headers (name and decoded value, in order), the
    [ctype.mimetype], the outcome of [get_body()] (decoded text, [None] for
    an [Err]), of [get_body_raw()], and the subparts. *)
Scheme All for list.

Inductive mail : Type :=
  Mail (headers : list (rstr * rstr)) (mimetype : rstr) (body : option rstr)
       (body_raw : option (list Z)) (subparts : list mail).

Definition headers (m : mail) := let '(Mail h _ _ _ _) := m in h.
Definition mimetype (m : mail) := let '(Mail _ t _ _ _) := m in t.
Definition get_body (m : mail) := let '(Mail _ _ b _ _) := m in b.
Definition get_body_raw (m : mail) := let '(Mail _ _ _ r _) := m in r.
Definition subparts (m : mail) := let '(Mail _ _ _ _ s) := m in s.

(** [MailHeaderMap::get_first_value]: the first header whose name equals
    [name] ignoring ASCII case. *)
Definition get_first_value (hs : list (rstr * rstr)) (name : rstr) : option rstr :=
  option_map snd
    (List.find (fun h => rstr_eqb (to_ascii_lowercase (fst h)) (to_ascii_lowercase name)) hs).

Definition header_first (m : mail) (name : rstr) : option rstr :=
  match get_first_value (headers m) name with
  | Some v => let v := trim v in if is_empty v then None else Some v
  | None => None
  end.

Definition is_attachment_disposition (part : mail) : bool :=
  let cd := to_ascii_lowercase
              (unwrap_or_default (header_first part (of_string "Content-Disposition"))) in
  starts_with (trim_start cd) (of_string "attachment").

Definition parse_filename_from_headers (m : mail) : option rstr :=
  let from_cd :=
    match header_first m (of_string "Content-Disposition") with
    | Some cd => parse_param cd (of_string "filename")
    | None => None
    end in
  match from_cd with
  | Some fname => Some fname
  | None =>
      match header_first m (of_string "Content-Type") with
      | Some ct => parse_param ct (of_string "name")
      | None => None
      end
  end.

(* ------------------------------------------------------------------ *)
(** ** Banner filtering and body scoring *)

(** [text.replace("\r\n", "\n").replace('\r', "\n")] *)
Fixpoint replace_crlf (s : rstr) : rstr :=
  match s with
  | [] => []
  | c :: s' =>
      match s' with
      | d :: s'' => if (c =? 13) && (d =? 10) then 10 :: replace_crlf s'' else c :: replace_crlf s'
      | [] => [c]
      end
  end.

Definition normalize_newlines (text : rstr) : rstr :=
  replace_char 13 [10] (replace_crlf text).

(** [str::lines]: split at [\n], drop one [\r] before each [\n], and no
    final empty line. *)
Definition strip_cr (l : rstr) : rstr :=
  match rev l with
  | c :: r => if c =? 13 then rev r else l
  | [] => l
  end.

Definition lines (s : rstr) : list rstr :=
  let ps := split_on 10 s in
  let last_piece := last ps [] in
  map strip_cr (removelast ps) ++ (if is_empty last_piece then [] else [last_piece]).

(** [[&str]::join(sep)] *)
Fixpoint join (sep : rstr) (l : list rstr) : rstr :=
  match l with
  | [] => []
  | [x] => x
  | x :: l' => x ++ sep ++ join sep l'
  end.

Definition core_alnum_len (text : rstr) : nat :=
  length (filter is_ascii_alphanumeric text).

Definition has (l : rstr) (s : String.string) : bool := contains l (of_string s).
Definition starts (l : rstr) (s : String.string) : bool := starts_with l (of_string s).
Arguments has l s%_string.
Arguments starts l s%_string.

Definition looks_like_external_banner (l : rstr) : bool :=
  (has l "external email"
   && (has l "caution" || has l "warning" || has l "external sender" || has l "originated"))
  || starts l "caution" && has l "external"
  || starts l "warning" && has l "external"
  || starts l "this email originated"
  || starts l "do not click"
  || starts l "don't click"
  || has l "unless you recognise"
  || has l "unless you recognize"
  || has l "expected and known to be safe".

(** One iteration of the loop of [strip_external_banner_lines]. *)
Definition keep_line (kept : list rstr) (line : rstr) : list rstr :=
  let l := to_ascii_lowercase (trim line) in
  if is_empty l then kept ++ [line]
  else if looks_like_external_banner l then kept
  else kept ++ [line].

Definition strip_external_banner_lines (text : rstr) : rstr :=
  let normalized := normalize_newlines text in
  join [10] (fold_left keep_line (lines normalized) []).

Definition is_mostly_external_banner (text : rstr) : bool :=
  let lower := to_ascii_lowercase text in
  if negb (contains lower (of_string "external")) then false else
  let core_total := core_alnum_len text in
  let core_stripped := core_alnum_len (strip_external_banner_lines text) in
  Nat.ltb 0 core_total && Nat.ltb core_total 220 && Nat.ltb core_stripped 40.

Fixpoint html_to_text_go (in_tag : bool) (html : rstr) : rstr :=
  match html with
  | [] => []
  | ch :: html' =>
      if ch =? 60 then html_to_text_go true html'
      else if ch =? 62 then html_to_text_go false html'
      else if in_tag then html_to_text_go in_tag html'
      else ch :: html_to_text_go in_tag html'
  end.

Definition html_to_text_rough (html : rstr) : rstr := html_to_text_go false html.

(* ------------------------------------------------------------------ *)
(** ** Body selection *)

(** [collect_text_bodies(mail, mime_prefix, out)]: [out] is threaded through. *)
Fixpoint collect_text_bodies (m : mail) (mime_prefix : rstr) (out : list rstr) : list rstr :=
  match m with
  | Mail hs ct b raw subs =>
      match subs with
      | [] =>
          let ctype := to_ascii_lowercase ct in
          if rstr_eqb ctype mime_prefix || starts_with ctype mime_prefix then
            if is_attachment_disposition (Mail hs ct b raw subs) then out
            else match b with
                 | Some body => if is_empty (trim body) then out else out ++ [body]
                 | None => out
                 end
          else out
      | _ => fold_left (fun out part => collect_text_bodies part mime_prefix out) subs out
      end
  end.

(** The leaf parts of a message, in order. *)
Fixpoint leaves (m : mail) : list mail :=
  match m with
  | Mail hs ct b raw subs =>
      match subs with
      | [] => [Mail hs ct b raw []]
      | _ => flat_map leaves subs
      end
  end.

(** The scoring loop shared by [choose_best_body_text] and
    [choose_best_body_html]: the index of the first candidate of maximal
    score, or 0 when no candidate scores above 0. *)
Definition best_index (score : rstr -> nat) (candidates : list rstr) : nat :=
  fst (fold_left
         (fun acc ic =>
            let '(best_idx, best_score) := acc in
            let '(idx, c) := ic in
            let s := score c in
            if Nat.ltb best_score s then (idx, s) else (best_idx, best_score))
         (combine (seq 0 (length candidates)) candidates) (0%nat, 0%nat)).

Definition score_text (c : rstr) : nat := core_alnum_len (strip_external_banner_lines c).
Definition score_html (c : rstr) : nat :=
  core_alnum_len (strip_external_banner_lines (html_to_text_rough c)).

(** [candidates.swap_remove(best_idx)] returns the element at [best_idx]. *)
Definition choose_best (score : rstr -> nat) (candidates : list rstr) : option rstr :=
  match candidates with
  | [] => None
  | _ => Some (nth (best_index score candidates) candidates [])
  end.

Definition choose_best_body_text (m : mail) : option rstr :=
  choose_best score_text (collect_text_bodies m (of_string "text/plain") []).

Definition choose_best_body_html (m : mail) : option rstr :=
  choose_best score_html (collect_text_bodies m (of_string "text/html") []).

Definition select_email_bodies (m : mail) : option rstr * option rstr :=
  let body_text := choose_best_body_text m in
  let body_html := choose_best_body_html m in
  match body_text, body_html with
  | Some bt, Some bh =>
      if is_mostly_external_banner bt then
        let html_text := html_to_text_rough bh in
        let stripped := strip_external_banner_lines html_text in
        let candidate := trim stripped in
        if Nat.leb 20 (core_alnum_len candidate) then (Some candidate, body_html)
        else (None, body_html)
      else (body_text, body_html)
  | _, _ => (body_text, body_html)
  end.

(* ------------------------------------------------------------------ *)
(** ** Attachments *)

Definition is_attachment_part (part : mail) : bool :=
  match subparts part with
  | _ :: _ => false
  | [] =>
      let ctype := to_ascii_lowercase (mimetype part) in
      if starts ctype "text/plain" || starts ctype "text/html" then false else
      let cd := to_ascii_lowercase
                  (unwrap_or_default (header_first part (of_string "Content-Disposition"))) in
      let has_filename := match parse_filename_from_headers part with
                          | Some _ => true | None => false end in
      if starts cd "attachment" then true
      else if starts cd "inline" && has_filename then true
      else has_filename
  end.

Fixpoint collect_attachment_parts (m : mail) (out : list mail) : list mail :=
  match m with
  | Mail hs ct b raw subs =>
      match subs with
      | [] => if is_attachment_part (Mail hs ct b raw subs) then out ++ [Mail hs ct b raw subs] else out
      | _ => fold_left (fun out part => collect_attachment_parts part out) subs out
      end
  end.

(** Decimal digits of [n], and [format!("attachment-{:03}.bin", n)]. *)
Fixpoint decimal_go (fuel n : nat) : rstr :=
  match fuel with
  | O => []
  | S f =>
      if Nat.ltb n 10 then [Z.of_nat n + 48]
      else decimal_go f (Nat.div n 10) ++ [Z.of_nat (Nat.modulo n 10) + 48]
  end.
Definition decimal (n : nat) : rstr := decimal_go (S n) n.
Definition default_attachment_name (part_idx : nat) : rstr :=
  let d := decimal part_idx in
  of_string "attachment-" ++ repeat 48 (3 - length d) ++ d ++ of_string ".bin".

(** The fields of an [AttachmentRecord] that come from the MIME part
    (identifiers, hashes and S3 locations are left out). *)
Record attachment_record := AttachmentRecord {
  filename : rstr;
  content_type : option rstr;
  file_size_bytes : nat;
  is_inline : bool;
  content_id : option rstr }.

(** One iteration of the attachment loop of [main]: the part is skipped
    ([continue]), the run panics, or a record is written. *)
Inductive att_step :=
  | AttSkip
  | AttPanic
  | AttRecord (r : attachment_record).

Definition attachment_step (part : mail) (part_idx : nat) : att_step :=
  match get_body_raw part with
  | None => AttSkip
  | Some [] => AttSkip
  | Some content =>
      let filename_raw :=
        match parse_filename_from_headers part with
        | Some f => f
        | None => default_attachment_name part_idx
        end in
      match sanitize_filename filename_raw (of_string "attachment.bin") with
      | None => AttPanic
      | Some fname =>
          let cd := to_ascii_lowercase
                      (unwrap_or_default (header_first part (of_string "Content-Disposition"))) in
          let inline := starts cd "inline"
                        || match header_first part (of_string "Content-ID") with
                           | Some _ => true | None => false end in
          let cid := header_first part (of_string "Content-ID") in
          let ctype := if is_empty (mimetype part) then None else Some (mimetype part) in
          match sanitize_filename fname (of_string "attachment.bin") with
          | None => AttPanic
          | Some _ => AttRecord (AttachmentRecord fname ctype (length content) inline cid)
          end
      end
  end.

(* ------------------------------------------------------------------ *)
(** ** mbox splitting (on bytes) *)

Definition from_marker : list Z := of_string "From ".

(** [buf.windows(n)] *)
Definition windows (n : nat) (buf : list Z) : list (list Z) :=
  if Nat.ltb (length buf) n then []
  else map (fun i => firstn n (skipn i buf)) (seq 0 (length buf - n + 1)).

Definition looks_like_mbox (buf : list Z) : bool :=
  starts_with buf from_marker
  || existsb (fun w => rstr_eqb w (of_string (String.String "010"%char "From "))) (windows 6 buf).

Fixpoint insert_sorted (x : nat) (l : list nat) : list nat :=
  match l with
  | [] => [x]
  | y :: l' => if Nat.leb x y then x :: l else y :: insert_sorted x l'
  end.

(** [sort_unstable] and [dedup] (removal of consecutive duplicates). *)
Definition sort_nat (l : list nat) : list nat := fold_right insert_sorted [] l.
Fixpoint dedup (l : list nat) : list nat :=
  match l with
  | x :: ((y :: _) as l') => if Nat.eqb x y then dedup l' else x :: dedup l'
  | _ => l
  end.

(** [seg.iter().position(|b| *b == b'\n')] *)
Fixpoint position_nl (seg : list Z) : option nat :=
  match seg with
  | [] => None
  | b :: seg' => if b =? 10 then Some O else option_map S (position_nl seg')
  end.

Definition split_mbox (buf : list Z) : list (list Z) :=
  let starts0 := if starts_with buf from_marker then [0%nat] else [] in
  let starts1 :=
    starts0 ++ map S (filter (fun i => (nth i buf 0 =? 10)
                                         && starts_with (skipn (S i) buf) from_marker)
                             (seq 0 (length buf - 6))) in
  match starts1 with
  | [] => [buf]
  | _ =>
      let starts := dedup (sort_nat starts1) in
      fold_left
        (fun out ist =>
           let '(idx, start) := ist in
           let end_ := nth (S idx) starts (length buf) in
           if Nat.leb end_ start then out else
           let seg := firstn (end_ - start) (skipn start buf) in
           match position_nl seg with
           | Some pos =>
               let msg := skipn (S pos) seg in
               if is_empty msg then out else out ++ [msg]
           | None => out
           end)
        (combine (seq 0 (length starts)) starts) []
  end.

(* ------------------------------------------------------------------ *)
(** ** The sender fields of [main] *)

(** [from_header.as_deref().map(parse_sender).unwrap_or((None, None))] *)
Definition message_sender (m : mail) : option (option rstr * option rstr) :=
  match header_first m (of_string "From") with
  | Some f => parse_sender f
  | None => Some (None, None)
  end.

(** The segmentation as the spec words it: boundaries are offset 0 when the
    blob starts with ["From "] and every offset that follows a newline and
    starts ["From "]; each segment loses its first line; empty remainders
    are dropped. Used only to compare with [split_mbox]. *)
Definition split_mbox_as_specified (buf : list Z) : list (list Z) :=
  let bounds :=
    filter (fun i => starts_with (skipn i buf) from_marker
                     && (Nat.eqb i 0 || (nth (i - 1) buf 0 =? 10)))
           (seq 0 (length buf)) in
  let ends := tl bounds ++ [length buf] in
  flat_map
    (fun se =>
       let seg := firstn (snd se - fst se) (skipn (fst se) buf) in
       match position_nl seg with
       | Some pos => let msg := skipn (S pos) seg in if is_empty msg then [] else [msg]
       | None => []
       end)
    (combine bounds ends).

(* ------------------------------------------------------------------ *)
(** ** Headers with several values *)

(** [MailHeaderMap::get_all_values]: the values of every header whose name
    equals [name] ignoring ASCII case, in order. *)
Definition get_all_values (hs : list (rstr * rstr)) (name : rstr) : list rstr :=
  map snd (filter (fun h => rstr_eqb (to_ascii_lowercase (fst h)) (to_ascii_lowercase name)) hs).

Definition header_all (m : mail) (name : rstr) : list rstr :=
  filter (fun v => negb (is_empty v)) (map trim (get_all_values (headers m) name)).

(* ------------------------------------------------------------------ *)
(** ** Output formatting of [main] *)

(** [format!("{:x}", digest)] and [sha256_bytes]: two lowercase hex digits
    per byte. *)
Definition hex_digit (n : Z) : rchar := if n <? 10 then 48 + n else 87 + n.
Definition hex_byte (b : Z) : rstr := [hex_digit (Z.shiftr b 4); hex_digit (Z.land b 15)].
Definition hex_of (bs : list Z) : rstr := flat_map hex_byte bs.

Definition sha256_bytes (bytes : list Z) : rstr := hex_of (Sha256.sha256 bytes).

(** [Uuid::to_string]: the hyphenated lowercase form, 8-4-4-4-12 digits. *)
Definition uuid_to_string (b : list Z) : rstr :=
  hex_of (firstn 4 b) ++ [45] ++ hex_of (firstn 2 (skipn 4 b)) ++ [45] ++
  hex_of (firstn 2 (skipn 6 b)) ++ [45] ++ hex_of (firstn 2 (skipn 8 b)) ++ [45] ++
  hex_of (skipn 10 b).








(** Lowercase hexadecimal digits, and the bytes they spell. *)
Definition is_lower_hex (c : rchar) : bool :=
  ((48 <=? c) && (c <=? 57)) || ((97 <=? c) && (c <=? 102)).
Definition hex_value (c : rchar) : Z := if c <=? 57 then c - 48 else c - 87.
Fixpoint hex_decode (s : rstr) : list Z :=
  match s with
  | h :: l :: s' => (16 * hex_value h + hex_value l) :: hex_decode s'
  | _ => []
  end.

(** The value of a string of decimal digits. *)
Definition decimal_value (ds : rstr) : Z := fold_left (fun acc d => acc * 10 + (d - 48)) ds 0.

(** The S3 key of an attachment:
    [format!("{prefix}attachments/{}/{}__{}", id, attachment_id, safe_name)]
    with [prefix = output_prefix.trim_start_matches('/')]. *)
Definition attachment_key (output_prefix id attachment_id safe_name : rstr) : rstr :=
  let prefix := trim_start_matches (is_char 47) output_prefix in
  prefix ++ of_string "attachments/" ++ id ++ [47] ++ attachment_id ++ of_string "__" ++ safe_name.



(** [char::is_ascii_digit] *)
Definition is_digit (c : rchar) : bool := (48 <=? c) && (c <=? 57).

(** The characters of the default attachment names. *)
Definition name_char (c : rchar) : bool :=
  (c =? 45) || (c =? 46) || is_digit c || ((97 <=? c) && (c <=? 122)).

(** The invariant of the scoring loop of [best_index] after [k] candidates:
    the pair [(best_idx, best_score)] is the start value or a candidate and
    its score, no candidate seen scores more, and none before [best_idx]
    scores as much. *)
Definition best_inv (score : rstr -> nat) (cands : list rstr) (k : nat) (acc : nat * nat) : Prop :=
  ((fst acc = 0 /\ snd acc = 0) \/
   (fst acc < length cands /\ snd acc = score (nth (fst acc) cands [])))%nat /\
  (forall j, (j < k)%nat -> (score (nth j cands []) <= snd acc)%nat) /\
  (forall j, (j < fst acc)%nat -> (score (nth j cands []) < snd acc)%nat).

(* ------------------------------------------------------------------ *)
(** ** Sample inputs *)

Definition nl : String.string := String.String "010"%char String.EmptyString.

Definition leaf (hs : list (String.string * String.string)) (ct : String.string)
           (body : String.string) : mail :=
  Mail (map (fun h => (of_string (fst h), of_string (snd h))) hs) (of_string ct)
       (Some (of_string body)) (Some (of_string body)) [].
Arguments leaf hs%_list ct%_string body%_string.

Definition multipart (ct : String.string) (parts : list mail) : mail :=
  Mail [(of_string "Content-Type", of_string ct)] (of_string ct) None None parts.
Arguments multipart ct%_string parts%_list.

Definition dq : String.string := String.String "034"%char String.EmptyString.

Definition banner_only_mail : mail :=
  multipart "multipart/alternative"
    [leaf [] "text/plain" "Do not click links";
     leaf [] "text/plain" "Do not click links or open attachments"].

(** The character treatment of [sanitize_filename] as the spec words it:
    [\\] and [/] become [_], NUL, CR and LF are dropped. *)
Definition sanitize_chars (name : rstr) : rstr :=
  flat_map (fun c => if (c =? 92) || (c =? 47) then [95]
                     else if (c =? 0) || (c =? 13) || (c =? 10) then [] else [c]) name.

Definition cid_attachment_part : mail :=
  Mail [(of_string "Content-Disposition", of_string ("attachment; filename=" ++ dq ++ "x.pdf" ++ dq));
        (of_string "Content-ID", of_string "<img1@x>")]
       (of_string "application/pdf") None (Some [37; 80; 68; 70]) [].

(** The lines [strip_external_banner_lines] keeps. *)
Definition keeps_line (line : rstr) : bool :=
  let l := to_ascii_lowercase (trim line) in
  is_empty l || negb (looks_like_external_banner l).

Definition mixed_mail : mail :=
  multipart "multipart/mixed"
    [leaf [] "text/plain" "Body text here.";
     Mail [(of_string "Content-Disposition",
            of_string ("attachment; filename=" ++ dq ++ "note.txt" ++ dq))]
          (of_string "text/plain") (Some (of_string "Attachment note content."))
          (Some (of_string "Attachment note content.")) []].

Definition banner_text_mail : mail :=
  multipart "multipart/alternative"
    [leaf [] "text/plain" "CAUTION: This email originated from outside the organisation (external).";
     leaf [] "text/html" "<p>Please find the quarterly report attached.</p>"].


(* ================================================================== *)
(** * Properties *)

Lemma sha256_length (msg : list Z) : length (Sha256.sha256 msg) = 32%nat.
Proof. unfold Sha256.sha256. destruct (fold_left _ _ _). reflexivity. Qed.

Example sha256_abc :
  Sha256.sha256 (of_string "abc") =
  [186; 120; 22; 191; 143; 1; 207; 234; 65; 65; 64; 222; 93; 174; 34; 35;
   176; 3; 97; 163; 150; 23; 122; 156; 180; 16; 255; 97; 242; 0; 21; 173].
Proof. vm_compute. reflexivity. Qed.

Example stable_uuid_seed_example :
  stable_uuid (of_string "pst:b1|src:a/b|mid:<id@x>|idx:0") =
  [48; 10; 10; 90; 124; 66; 95; 5; 175; 104; 102; 207; 106; 231; 143; 208].
Proof. vm_compute. reflexivity. Qed.

Lemma lor_land_const (x m c k : Z) :
  0 <= k -> 0 <= m -> Z.shiftr m k = 0 -> Z.land c m = 0 -> 0 <= c ->
  let v := Z.lor (Z.land x m) c in
  Z.shiftr v k = Z.shiftr c k /\ Z.land v m = Z.land x m /\ 0 <= v.
Proof.
  intros Hk Hm0 Hs Hc Hc0 v. subst v. repeat split.
  - rewrite Z.shiftr_lor, Z.shiftr_land, Hs, Z.land_0_r. apply Z.lor_0_l.
  - rewrite Z.land_lor_distr_l, <- Z.land_assoc, Z.land_diag, Hc. apply Z.lor_0_r.
  - apply Z.lor_nonneg. split; [apply Z.land_nonneg; right; exact Hm0 | exact Hc0].
Qed.

Lemma byte_of_shiftr (v k hi : Z) :
  0 <= k -> 0 <= v -> Z.shiftr v k = hi -> 0 <= v < (hi + 1) * 2 ^ k.
Proof.
  intros Hk Hv Hs. rewrite Z.shiftr_div_pow2 in Hs by lia.
  assert (Hp : 0 < 2 ^ k) by (apply Z.pow_pos_nonneg; lia).
  pose proof (Z.div_mod v (2 ^ k) ltac:(lia)). pose proof (Z.mod_pos_bound v (2 ^ k) Hp).
  subst hi. nia.
Qed.

(** Claim C1: for every seed, [stable_uuid] is the first 16 bytes of the
    SHA-256 digest of the seed's UTF-8 bytes, with the high nibble of byte 6
    set to 0x5 and the top two bits of byte 8 set to 0b10 (all other bits kept);
    being a function of the seed it is deterministic. *)
Theorem stable_uuid_layout (seed : rstr) :
  let d := Sha256.sha256 (as_bytes seed) in
  let u := stable_uuid seed in
  length u = 16%nat /\
  (* bytes 0-5, 7 and 9-15 are the digest's *)
  firstn 6 u = firstn 6 d /\ nth 7 u 0 = nth 7 d 0 /\ skipn 9 u = firstn 7 (skipn 9 d) /\
  (Z.shiftr (nth 6 u 0) 4 = 0x5 /\ Z.land (nth 6 u 0) 0x0F = Z.land (nth 6 d 0) 0x0F
   /\ 0 <= nth 6 u 0 < 256) /\
  (Z.shiftr (nth 8 u 0) 6 = 2 /\ Z.land (nth 8 u 0) 0x3F = Z.land (nth 8 d 0) 0x3F
   /\ 0 <= nth 8 u 0 < 256).
Proof.
  intros d u. unfold u, stable_uuid. fold d.
  pose proof (sha256_length (as_bytes seed)) as Hl. fold d in Hl.
  do 16 (destruct d as [|? d]; [discriminate Hl|]).
  cbn [firstn nth set_nth length].
  destruct (lor_land_const z5 0x0F 0x50 4) as (A1 & A2 & A3); try reflexivity; try lia.
  destruct (lor_land_const z7 0x3F 0x80 6) as (B1 & B2 & B3); try reflexivity; try lia.
  pose proof (byte_of_shiftr _ 4 5 ltac:(lia) A3 A1).
  pose proof (byte_of_shiftr _ 6 2 ltac:(lia) B3 B1).
  do 4 (split; [reflexivity|]).
  split; [repeat split; first [exact A1 | exact A2 | lia] | repeat split; first [exact B1 | exact B2 | lia]].
Qed.

(** ** Per-message helpers that panic *)

(** Claim C2 (a code defect): two per-message helpers are not total. For the
    [From] header ["a>b<c"] the slice [text[start + 1..end]] of
    [parse_sender] has its start after its end and panics; for a file name
    of ["a"] followed by 100 copies of U+00E9 (201 bytes) [sanitize_filename]
    calls [truncate(200)] in the middle of a character and panics. Both
    panics are reached from the per-message loop of [main]. *)
Theorem per_message_helpers_panic :
  let msg := Mail [(of_string "From", of_string "a>b<c")] (of_string "text/plain")
                  (Some (of_string "hi")) None [] in
  let part := Mail [(of_string "Content-Disposition",
                     of_string ("attachment; filename=" ++ dq ++ "a") ++ repeat 233%Z 100
                     ++ of_string dq)]
                   (of_string "application/octet-stream") None (Some [1]) [] in
  message_sender msg = None /\ parse_sender (of_string "a>b<c") = None /\
  sanitize_filename (97 :: repeat 233%Z 100) (of_string "attachment.bin") = None /\
  is_attachment_part part = true /\ attachment_step part 0 = AttPanic.
Proof. vm_compute. repeat split. Qed.

(** ** Body choice among zero-score candidates *)

(** Claim C3 (a code defect): when every text/plain candidate scores zero,
    [choose_best_body_text] keeps the first candidate, not the longest one
    (the code's comment says "keep the longest"): here both candidates are
    banner lines scoring 0, the second is longer, and the first is returned. *)
Theorem choose_best_body_text_zero_scores_first :
  let c1 := of_string "Do not click links" in
  let c2 := of_string "Do not click links or open attachments" in
  collect_text_bodies banner_only_mail (of_string "text/plain") [] = [c1; c2] /\
  score_text c1 = 0%nat /\ score_text c2 = 0%nat /\
  (length c1 < length c2)%nat /\
  choose_best_body_text banner_only_mail = Some c1.
Proof. vm_compute. repeat split. lia. Qed.

(** ** mbox segmentation *)

(** Claim C7 (a code defect): the scan of [split_mbox] runs over
    [0..buf.len() - 6] and misses a ["\nFrom "] that ends the buffer (the
    sibling [looks_like_mbox] does see it through [windows(6)]). For the blob
    ["From a\nx\nFrom "] the code keeps ["x\nFrom "] where the segmentation
    of the claim gives ["x\n"]; for ["Subject: hi\nFrom "] it returns the
    whole blob, envelope line included, where the claim drops the empty
    segment. Two ordinary mbox messages do split into two. *)
Theorem split_mbox_misses_final_marker :
  let b1 := of_string ("From a" ++ nl ++ "x" ++ nl ++ "From ") in
  let b2 := of_string ("Subject: hi" ++ nl ++ "From ") in
  let b3 := of_string ("From a" ++ nl ++ "Subject: 1" ++ nl ++ nl ++ "one" ++ nl
                       ++ "From b" ++ nl ++ "Subject: 2" ++ nl ++ nl ++ "two" ++ nl) in
  looks_like_mbox b1 = true /\
  split_mbox b1 = [of_string ("x" ++ nl ++ "From ")] /\
  split_mbox_as_specified b1 = [of_string ("x" ++ nl)] /\
  looks_like_mbox b2 = true /\
  split_mbox b2 = [b2] /\ split_mbox_as_specified b2 = [] /\
  split_mbox b3 = [of_string ("Subject: 1" ++ nl ++ nl ++ "one" ++ nl);
                   of_string ("Subject: 2" ++ nl ++ nl ++ "two" ++ nl)] /\
  split_mbox b3 = split_mbox_as_specified b3.
Proof. vm_compute. repeat split. Qed.

(** ** Filename parameters *)

(** Claim C9 (a code defect): in [parse_param], [iter.next()?] on a
    parameter without [=] returns [None] from the whole function instead of
    skipping that parameter, so a malformed parameter before [filename]
    hides it: for [Content-Disposition: attachment; size; filename="x.pdf"]
    (and no [Content-Type]) no file name is resolved, while without the
    malformed parameter ["x.pdf"] is. *)
Theorem parse_param_stops_at_malformed_parameter :
  let cd := of_string ("attachment; size; filename=" ++ dq ++ "x.pdf" ++ dq) in
  let part := Mail [(of_string "Content-Disposition", cd)]
                   (of_string "application/pdf") None (Some [1]) [] in
  parse_param cd (of_string "filename") = None /\
  parse_filename_from_headers part = None /\
  parse_param (of_string ("attachment; filename=" ++ dq ++ "x.pdf" ++ dq)) (of_string "filename")
    = Some (of_string "x.pdf").
Proof. vm_compute. repeat split. Qed.

(** ** The inline flag of attachment records *)

(** Claim C4, as stated, fails: a leaf with
    [Content-Disposition: attachment; filename="x.pdf"] and a [Content-ID]
    is classified as an attachment and recorded with [is_inline = true]. *)
Lemma attachment_with_content_id_is_inline :
  is_attachment_part cid_attachment_part = true /\
  attachment_step cid_attachment_part 0 =
    AttRecord (AttachmentRecord (of_string "x.pdf") (Some (of_string "application/pdf")) 4
                                true (Some (of_string "<img1@x>"))).
Proof. vm_compute. split; reflexivity. Qed.

Lemma starts_attachment_not_inline (cd : rstr) :
  starts cd "attachment" = true -> starts cd "inline" = false.
Proof.
  unfold starts.
  replace (of_string "attachment") with (97 :: of_string "ttachment") by reflexivity.
  replace (of_string "inline") with (105 :: of_string "nline") by reflexivity.
  destruct cd as [|c cd]; cbn [starts_with]; [discriminate|]. intros H.
  destruct (Z.eqb_spec 97 c); [subst; reflexivity | discriminate H].
Qed.

(** Claim C4 (corrected): a recorded attachment has
    [is_inline = (Content-Disposition starts with "inline") || (a non-empty
    Content-ID header is present)]; so an attachment-disposed leaf is
    recorded non-inline exactly when it has no Content-ID, and a leaf whose
    disposition starts with "inline" is recorded as inline. *)
Theorem attachment_is_inline_flag (part : mail) (idx : nat) (r : attachment_record) :
  attachment_step part idx = AttRecord r ->
  let cd := to_ascii_lowercase
              (unwrap_or_default (header_first part (of_string "Content-Disposition"))) in
  let has_cid := match header_first part (of_string "Content-ID") with
                 | Some _ => true | None => false end in
  is_inline r = starts cd "inline" || has_cid /\
  (starts cd "attachment" = true -> is_inline r = has_cid) /\
  (starts cd "inline" = true -> is_inline r = true).
Proof.
  unfold attachment_step. intros H.
  destruct (get_body_raw part) as [[|b content]|]; try discriminate.
  destruct (sanitize_filename _ _) as [fname|]; try discriminate.
  destruct (sanitize_filename fname _); try discriminate.
  injection H as <-. cbn [is_inline].
  split; [reflexivity | split].
  - intros Ha. rewrite (starts_attachment_not_inline _ Ha). reflexivity.
  - intros Hi. rewrite Hi. reflexivity.
Qed.

Lemma attachment_is_inline_flag_witness :
  attachment_step cid_attachment_part 0 =
    AttRecord (AttachmentRecord (of_string "x.pdf") (Some (of_string "application/pdf")) 4
                                true (Some (of_string "<img1@x>"))) /\
  let r := AttachmentRecord (of_string "x.pdf") (Some (of_string "application/pdf")) 4
                            true (Some (of_string "<img1@x>")) in
  let cd := to_ascii_lowercase
              (unwrap_or_default (header_first cid_attachment_part (of_string "Content-Disposition"))) in
  let has_cid := match header_first cid_attachment_part (of_string "Content-ID") with
                 | Some _ => true | None => false end in
  is_inline r = starts cd "inline" || has_cid /\
  (starts cd "attachment" = true -> is_inline r = has_cid) /\
  (starts cd "inline" = true -> is_inline r = true).
Proof.
  split; [vm_compute; reflexivity|].
  apply (attachment_is_inline_flag cid_attachment_part 0). vm_compute. reflexivity.
Defined.

(** ** [sanitize_filename] *)

Lemma replace_char_cons (c : rchar) (r : rstr) (x : rchar) (s : rstr) :
  replace_char c r (x :: s) = (if x =? c then r else [x]) ++ replace_char c r s.
Proof. reflexivity. Qed.

Lemma replace_char_app (c : rchar) (r : rstr) (a b : rstr) :
  replace_char c r (a ++ b) = replace_char c r a ++ replace_char c r b.
Proof. unfold replace_char. apply flat_map_app. Qed.

Lemma sanitize_chars_cons (x : rchar) (s : rstr) :
  sanitize_chars (x :: s) =
  (if (x =? 92) || (x =? 47) then [95]
   else if (x =? 0) || (x =? 13) || (x =? 10) then [] else [x]) ++ sanitize_chars s.
Proof. reflexivity. Qed.

(** The five [replace] calls of [sanitize_filename] act character by character. *)
Lemma replace_chain_sanitize_chars (name : rstr) :
  replace_char 10 [] (replace_char 13 [] (replace_char 0 []
    (replace_char 47 (of_string "_") (replace_char 92 (of_string "_") name))))
  = sanitize_chars name.
Proof.
  induction name as [|x name IH]; [reflexivity|].
  rewrite sanitize_chars_cons, <- IH, !replace_char_cons, !replace_char_app.
  f_equal.
  repeat (cbn; match goal with |- context [x =? ?c] => destruct (Z.eqb_spec x c); subst end);
    cbn; reflexivity.
Qed.

Lemma len_cons (c : rchar) (s : rstr) : len (c :: s) = (len_utf8 c + len s)%nat.
Proof. unfold len, as_bytes. cbn [flat_map]. apply length_app. Qed.

(** A char boundary [n] found at character index [k] splits off a prefix of
    [n] bytes. *)
Lemma char_index_prefix (s : rstr) (n k : nat) :
  char_index s n = Some k -> (k <= length s)%nat /\ len (firstn k s) = n.
Proof.
  revert n k. induction s as [|c s IH]; intros n k H.
  - destruct n; cbn in H; [|discriminate]. injection H as <-. split; reflexivity.
  - destruct n as [|n'].
    + injection H as <-. split; [cbn; lia | reflexivity].
    + cbn [char_index] in H. set (n := S n') in *.
      destruct (Nat.ltb_spec n (len_utf8 c)); [discriminate|].
      destruct (char_index s (n - len_utf8 c)) as [k'|] eqn:E; [|discriminate].
      injection H as <-. destruct (IH _ _ E) as [Hk Hl].
      split; [cbn; lia|]. cbn [firstn]. rewrite len_cons, Hl. lia.
Qed.

Lemma sanitize_chars_safe (base : rstr) (c : rchar) :
  In c (sanitize_chars base) -> c <> 92 /\ c <> 47 /\ c <> 0 /\ c <> 13 /\ c <> 10.
Proof.
  unfold sanitize_chars. rewrite in_flat_map. intros (x & _ & Hx).
  destruct ((x =? 92) || (x =? 47)) eqn:E1; [destruct Hx as [<-|[]]; lia|].
  destruct ((x =? 0) || (x =? 13) || (x =? 10)) eqn:E2; [destruct Hx|].
  destruct Hx as [<-|[]].
  apply orb_false_iff in E1 as [E1a E1b]. apply orb_false_iff in E2 as [E2 E2c].
  apply orb_false_iff in E2 as [E2a E2b].
  apply Z.eqb_neq in E1a, E1b, E2a, E2b, E2c. lia.
Qed.

(** Claim C5 (corrected): whenever [sanitize_filename] returns (it panics
    when byte 200 falls inside a character), its result is built from the
    trimmed name, or from the fallback when the trimmed name is empty, with
    [\\] and [/] replaced by [_] and NUL, CR and LF removed, and then cut to
    its first 200 bytes of UTF-8 when it is longer: the cap counts bytes,
    not characters. *)
Theorem sanitize_filename_props (value fallback r : rstr) :
  sanitize_filename value fallback = Some r ->
  let base := if is_empty (trim value) then fallback else trim value in
  let n := sanitize_chars base in
  (forall c, In c r -> c <> 92 /\ c <> 47 /\ c <> 0 /\ c <> 13 /\ c <> 10) /\
  (len r <= 200)%nat /\
  ((len n <= 200)%nat -> r = n) /\
  ((200 < len n)%nat -> len r = 200%nat /\ r = firstn (length r) n).
Proof.
  unfold sanitize_filename. rewrite replace_chain_sanitize_chars. intros H.
  set (base := if is_empty (trim value) then fallback else trim value) in *.
  set (n := sanitize_chars base) in *.
  assert (Hin : forall c, In c r -> In c n -> c <> 92 /\ c <> 47 /\ c <> 0 /\ c <> 13 /\ c <> 10)
    by (intros c _ Hc; exact (sanitize_chars_safe base c Hc)).
  destruct (Nat.ltb_spec 200 (len n)) as [Hlt|Hle].
  - unfold truncate in H. destruct (Nat.leb_spec (len n) 200); [lia|].
    destruct (char_index n 200) as [k|] eqn:E; [|discriminate].
    injection H as <-. destruct (char_index_prefix n 200 k E) as [Hk Hl].
    rewrite length_firstn, Nat.min_l by exact Hk.
    split; [|split; [lia | split; [lia | intros _; split; [exact Hl | reflexivity]]]].
    intros c Hc. apply (Hin c Hc).
    rewrite <- (firstn_skipn k n). apply in_or_app. left. exact Hc.
  - injection H as <-.
    split; [intros c Hc; exact (Hin c Hc Hc) | split; [exact Hle | split; [reflexivity | lia]]].
Qed.

Lemma sanitize_filename_props_witness :
  sanitize_filename (repeat 97%Z 300) (of_string "attachment.bin") = Some (repeat 97%Z 200) /\
  let base := if is_empty (trim (repeat 97%Z 300)) then of_string "attachment.bin"
              else trim (repeat 97%Z 300) in
  let n := sanitize_chars base in
  (forall c, In c (repeat 97%Z 200) -> c <> 92 /\ c <> 47 /\ c <> 0 /\ c <> 13 /\ c <> 10) /\
  (len (repeat 97%Z 200) <= 200)%nat /\
  ((len n <= 200)%nat -> repeat 97%Z 200 = n) /\
  ((200 < len n)%nat -> len (repeat 97%Z 200) = 200%nat
                        /\ repeat 97%Z 200 = firstn (length (repeat 97%Z 200)) n).
Proof.
  split; [vm_compute; reflexivity|].
  apply (sanitize_filename_props (repeat 97%Z 300) (of_string "attachment.bin")).
  vm_compute. reflexivity.
Defined.

(** The claim's examples: path separators become [_], and a 300-character
    ASCII name keeps its first 200 characters. *)
Example sanitize_filename_examples :
  sanitize_filename (of_string "../../etc/passwd") (of_string "attachment.bin")
    = Some (of_string ".._.._etc_passwd") /\
  sanitize_filename (repeat 97%Z 300) (of_string "attachment.bin") = Some (repeat 97%Z 200) /\
  sanitize_filename (of_string "   ") (of_string "attachment.bin")
    = Some (of_string "attachment.bin").
Proof. vm_compute. repeat split. Qed.

(** Claim C5, as stated, fails on non-ASCII names: 201 copies of U+00E9
    (402 bytes) are cut to 100 characters (200 bytes), not to their first
    200 characters. *)
Lemma sanitize_filename_caps_bytes_not_chars :
  sanitize_filename (repeat 233%Z 201) (of_string "attachment.bin") = Some (repeat 233%Z 100) /\
  repeat 233%Z 100 <> firstn 200 (repeat 233%Z 201).
Proof. split; [vm_compute; reflexivity | cbn; discriminate]. Qed.

(** ** Banner-line filtering *)

Lemma keep_line_fold (ls acc : list rstr) :
  fold_left keep_line ls acc = acc ++ filter keeps_line ls.
Proof.
  revert acc. induction ls as [|x ls IH]; intros acc; cbn [fold_left filter].
  - symmetry. apply app_nil_r.
  - rewrite IH. unfold keep_line, keeps_line.
    destruct (is_empty _); cbn [orb negb].
    + rewrite <- app_assoc. reflexivity.
    + destruct (looks_like_external_banner _); cbn [negb].
      * reflexivity.
      * rewrite <- app_assoc. reflexivity.
Qed.

Lemma strip_external_banner_lines_filter (text : rstr) :
  strip_external_banner_lines text =
  join [10] (filter keeps_line (lines (normalize_newlines text))).
Proof. unfold strip_external_banner_lines. rewrite keep_line_fold. reflexivity. Qed.

Lemma in_replace_char (a : rchar) (r s : rstr) (c : rchar) :
  In c (replace_char a r s) -> In c r \/ (In c s /\ c <> a).
Proof.
  unfold replace_char. rewrite in_flat_map. intros (d & Hd & Hc).
  destruct (Z.eqb_spec d a); [left; exact Hc|].
  destruct Hc as [<-|[]]. right. split; assumption.
Qed.

Lemma normalize_newlines_no_cr (text : rstr) : ~ In 13 (normalize_newlines text).
Proof.
  unfold normalize_newlines. intros H.
  destruct (in_replace_char _ _ _ _ H) as [[E|[]]|[_ E]]; [discriminate E | apply E; reflexivity].
Qed.

Lemma replace_crlf_no_cr (s : rstr) : ~ In 13 s -> replace_crlf s = s.
Proof.
  induction s as [|c s IH]; intros H; [reflexivity|].
  assert (Hc : c <> 13) by (intros ->; apply H; left; reflexivity).
  assert (Hs : ~ In 13 s) by (intros Hs; apply H; right; exact Hs).
  cbn [replace_crlf]. destruct s as [|d s'].
  - reflexivity.
  - rewrite (proj2 (Z.eqb_neq c 13) Hc). cbn [andb]. f_equal. exact (IH Hs).
Qed.

Lemma replace_char_absent (a : rchar) (r s : rstr) : ~ In a s -> replace_char a r s = s.
Proof.
  induction s as [|c s IH]; intros H; [reflexivity|].
  rewrite replace_char_cons.
  destruct (Z.eqb_spec c a) as [->|_]; [exfalso; apply H; left; reflexivity|].
  cbn. f_equal. apply IH. intros Hs. apply H. right. exact Hs.
Qed.

Lemma normalize_newlines_no_cr_id (s : rstr) : ~ In 13 s -> normalize_newlines s = s.
Proof.
  intros H. unfold normalize_newlines. rewrite (replace_crlf_no_cr s H).
  apply replace_char_absent. exact H.
Qed.

Lemma split_on_not_nil (c : rchar) (s : rstr) : split_on c s <> [].
Proof.
  destruct s as [|d s]; cbn; [discriminate|].
  destruct (d =? c); [discriminate|]. destruct (split_on c s); discriminate.
Qed.

Lemma split_on_pieces (c : rchar) (s x : rstr) (y : rchar) :
  In x (split_on c s) -> In y x -> In y s /\ y <> c.
Proof.
  revert x. induction s as [|d s IH]; intros x Hx Hy.
  - destruct Hx as [<-|[]]. destruct Hy.
  - cbn [split_on] in Hx. destruct (Z.eqb_spec d c) as [->|Hdc].
    + destruct Hx as [<-|Hx]; [destruct Hy|].
      destruct (IH x Hx Hy). split; [right|]; assumption.
    + destruct (split_on c s) as [|x0 xs] eqn:E.
      * destruct Hx as [<-|[]]. destruct Hy as [<-|[]]. split; [left; reflexivity | exact Hdc].
      * destruct Hx as [<-|Hx].
        -- destruct Hy as [<-|Hy]; [split; [left; reflexivity | exact Hdc]|].
           destruct (IH x0 (or_introl eq_refl) Hy). split; [right|]; assumption.
        -- destruct (IH x (or_intror Hx) Hy). split; [right|]; assumption.
Qed.

Lemma strip_cr_in (l : rstr) (y : rchar) : In y (strip_cr l) -> In y l.
Proof.
  unfold strip_cr. destruct (rev l) as [|c r] eqn:E; [tauto|].
  destruct (c =? 13); [|tauto]. intros Hy.
  rewrite <- (rev_involutive l), E. cbn. apply in_or_app. left. exact Hy.
Qed.

Lemma strip_cr_no_cr (l : rstr) : ~ In 13 l -> strip_cr l = l.
Proof.
  unfold strip_cr. destruct (rev l) as [|c r] eqn:E; [reflexivity|].
  destruct (Z.eqb_spec c 13) as [->|]; [|reflexivity].
  intros H. exfalso. apply H. rewrite <- (rev_involutive l), E. cbn.
  apply in_or_app. right. left. reflexivity.
Qed.

Lemma in_removelast {A} (l : list A) (x : A) : In x (removelast l) -> In x l.
Proof.
  induction l as [|a l IH]; [tauto|]. cbn. destruct l as [|b l]; [tauto|].
  intros [<-|H]; [left; reflexivity | right; apply IH, H].
Qed.

Lemma in_last {A} (l : list A) (d : A) : l <> [] -> In (last l d) l.
Proof.
  induction l as [|a l IH]; intros H; [contradiction|].
  destruct l as [|b l]; [left; reflexivity|]. right. apply IH. discriminate.
Qed.

Lemma lines_pieces (s x : rstr) (y : rchar) :
  In x (lines s) -> In y x -> In y s /\ y <> 10.
Proof.
  unfold lines. intros Hx Hy. apply in_app_or in Hx as [Hx|Hx].
  - apply in_map_iff in Hx as (x0 & <- & Hx0).
    apply (split_on_pieces 10 s x0); [apply in_removelast, Hx0 | apply strip_cr_in, Hy].
  - destruct (is_empty _); [destruct Hx|]. destruct Hx as [<-|[]].
    apply (split_on_pieces 10 s (last (split_on 10 s) [])); [|exact Hy].
    apply in_last, split_on_not_nil.
Qed.

Lemma split_on_absent (c : rchar) (s : rstr) : ~ In c s -> split_on c s = [s].
Proof.
  induction s as [|d s IH]; intros H; [reflexivity|]. cbn [split_on].
  destruct (Z.eqb_spec d c) as [->|_]; [exfalso; apply H; left; reflexivity|].
  rewrite IH by (intros Hs; apply H; right; exact Hs). reflexivity.
Qed.

Lemma split_on_sep (c : rchar) (x rest : rstr) :
  ~ In c x -> split_on c (x ++ c :: rest) = x :: split_on c rest.
Proof.
  induction x as [|d x IH]; intros H; cbn [app split_on].
  - rewrite Z.eqb_refl. reflexivity.
  - destruct (Z.eqb_spec d c) as [->|_]; [exfalso; apply H; left; reflexivity|].
    rewrite IH by (intros Hs; apply H; right; exact Hs). reflexivity.
Qed.

Lemma split_on_join (L : list rstr) :
  L <> [] -> (forall x, In x L -> ~ In 10 x) -> split_on 10 (join [10] L) = L.
Proof.
  induction L as [|x L IH]; intros Hne H; [contradiction|].
  destruct L as [|y L].
  - cbn [join]. apply split_on_absent, H. left. reflexivity.
  - change (join [10] (x :: y :: L)) with (x ++ [10] ++ join [10] (y :: L)).
    cbn [app]. rewrite split_on_sep by (apply H; left; reflexivity).
    f_equal. apply IH; [discriminate|]. intros z Hz. apply H. right. exact Hz.
Qed.

Lemma in_join (sep : rstr) (L : list rstr) (y : rchar) :
  In y (join sep L) -> In y sep \/ exists x, In x L /\ In y x.
Proof.
  induction L as [|x L IH]; cbn [join]; [intros []|].
  destruct L as [|z L].
  - intros Hy. right. exists x. split; [left; reflexivity | exact Hy].
  - intros Hy. apply in_app_or in Hy as [Hy|Hy]; [right; exists x; split; [left|]; auto|].
    apply in_app_or in Hy as [Hy|Hy]; [left; exact Hy|].
    destruct (IH Hy) as [H|(x0 & Hx0 & Hy0)]; [left; exact H|].
    right. exists x0. split; [right; exact Hx0 | exact Hy0].
Qed.

(** The lines of joined lines: the same lines, less a final empty one. *)
Lemma lines_join (L : list rstr) :
  L <> [] -> (forall x, In x L -> ~ In 10 x /\ ~ In 13 x) ->
  lines (join [10] L) = if is_empty (last L []) then removelast L else L.
Proof.
  intros Hne H. unfold lines.
  rewrite split_on_join by (exact Hne || (intros x Hx; apply H, Hx)).
  rewrite map_ext_in with (g := fun x => x)
    by (intros x Hx; apply strip_cr_no_cr, H, in_removelast, Hx).
  rewrite map_id. destruct (is_empty (last L [])).
  - apply app_nil_r.
  - symmetry. apply app_removelast_last. exact Hne.
Qed.

Lemma join_snoc_empty (sep : rstr) (A : list rstr) :
  A <> [] -> join sep (A ++ [[]]) = join sep A ++ sep.
Proof.
  induction A as [|x A IH]; intros Hne; [contradiction|].
  destruct A as [|y A].
  - cbn. rewrite !app_nil_r. reflexivity.
  - change (join sep ((x :: y :: A) ++ [[]])) with (x ++ sep ++ join sep ((y :: A) ++ [[]])).
    rewrite IH by discriminate.
    change (join sep (x :: y :: A)) with (x ++ sep ++ join sep (y :: A)).
    rewrite !app_assoc. reflexivity.
Qed.

Lemma last_app_r {A} (a b : list A) (d : A) : b <> [] -> last (a ++ b) d = last b d.
Proof.
  induction a as [|x a IH]; intros Hb; [reflexivity|].
  cbn [app]. rewrite <- IH by exact Hb.
  destruct (a ++ b) eqn:E; [apply app_eq_nil in E as [_ E]; contradiction | reflexivity].
Qed.

Lemma last_join (sep : rstr) (L : list rstr) :
  L <> [] -> last L [] <> [] ->
  join sep L <> [] /\ last (join sep L) 0 = last (last L []) 0.
Proof.
  induction L as [|x L IH]; intros Hne Hl; [contradiction|].
  destruct L as [|y L].
  - cbn in *. split; [exact Hl | reflexivity].
  - change (join sep (x :: y :: L)) with (x ++ sep ++ join sep (y :: L)).
    change (last (x :: y :: L) []) with (last (y :: L) []) in *.
    destruct (IH ltac:(discriminate) Hl) as [Hj Hlast].
    split.
    + intros E. apply app_eq_nil in E as [_ E]. apply app_eq_nil in E as [_ E]. exact (Hj E).
    + rewrite app_assoc, last_app_r by exact Hj. exact Hlast.
Qed.

Lemma removelast_last_empty (L : list rstr) :
  L <> [] -> last L [] = [] -> L = removelast L ++ [[]].
Proof.
  induction L as [|x L IH]; intros Hne E; [contradiction|].
  destruct L as [|y L].
  - cbn in E. subst x. reflexivity.
  - change (removelast (x :: y :: L)) with (x :: removelast (y :: L)).
    cbn [app]. f_equal. apply IH; [discriminate | exact E].
Qed.

Lemma filter_all_true {A} (f : A -> bool) (l : list A) :
  (forall x, In x l -> f x = true) -> filter f l = l.
Proof.
  induction l as [|a l IH]; intros H; [reflexivity|]. cbn.
  rewrite (H a (or_introl eq_refl)), IH by (intros x Hx; apply H; right; exact Hx).
  reflexivity.
Qed.

(** Filtering already-filtered lines keeps them all, except that [lines]
    drops a final empty line. *)
Lemma strip_external_banner_lines_join (L : list rstr) :
  L <> [] -> (forall x, In x L -> ~ In 10 x /\ ~ In 13 x /\ keeps_line x = true) ->
  strip_external_banner_lines (join [10] L) =
  join [10] (if is_empty (last L []) then removelast L else L).
Proof.
  intros Hne H. rewrite strip_external_banner_lines_filter.
  rewrite normalize_newlines_no_cr_id.
  2:{ intros Hin. destruct (in_join _ _ _ Hin) as [[E|[]]|(x & Hx & Hy)]; [discriminate E|].
      apply (H x Hx), Hy. }
  rewrite lines_join by (exact Hne || (intros x Hx; split; apply (H x Hx))).
  f_equal. apply filter_all_true. intros x Hx. apply (H x).
  destruct (is_empty (last L [])); [apply in_removelast|]; exact Hx.
Qed.

(** Claim C10, as stated, fails: on ["a\n\n"] the filter returns ["a\n"]
    (its last kept line is empty), and filtering that again returns ["a"]. *)
Lemma strip_external_banner_lines_not_idempotent :
  strip_external_banner_lines (of_string ("a" ++ nl ++ nl)) = of_string ("a" ++ nl) /\
  strip_external_banner_lines (of_string ("a" ++ nl)) = of_string "a".
Proof. vm_compute. split; reflexivity. Qed.

(** Claim C10 (corrected): applying [strip_external_banner_lines] to its own
    output changes nothing when that output does not end with a newline; when
    it does (the last kept line was empty), the second pass removes exactly
    that final newline and nothing else. *)
Theorem strip_external_banner_lines_twice (s : rstr) :
  (last (strip_external_banner_lines s) 0 <> 10 ->
   strip_external_banner_lines (strip_external_banner_lines s) = strip_external_banner_lines s) /\
  (last (strip_external_banner_lines s) 0 = 10 ->
   strip_external_banner_lines (strip_external_banner_lines s) ++ [10]
   = strip_external_banner_lines s).
Proof.
  set (kept := filter keeps_line (lines (normalize_newlines s))).
  assert (Hr : strip_external_banner_lines s = join [10] kept)
    by apply strip_external_banner_lines_filter.
  assert (Hk : forall x, In x kept -> ~ In 10 x /\ ~ In 13 x /\ keeps_line x = true).
  { intros x Hx. apply filter_In in Hx as [Hx Hkeep].
    split; [|split; [|exact Hkeep]].
    - intros H10. destruct (lines_pieces _ _ _ Hx H10) as [_ E]. apply E. reflexivity.
    - intros H13. destruct (lines_pieces _ _ _ Hx H13) as [Hn _].
      exact (normalize_newlines_no_cr s Hn). }
  rewrite Hr. clearbody kept. clear Hr.
  destruct kept as [|k0 ks] eqn:Ekept.
  { cbn. split; [reflexivity | discriminate]. }
  rewrite <- Ekept in *.
  assert (Hne : kept <> []) by (rewrite Ekept; discriminate).
  rewrite (strip_external_banner_lines_join kept Hne Hk).
  destruct (is_empty (last kept [])) eqn:Elast.
  - (* the last kept line is empty *)
    assert (Hsplit : kept = removelast kept ++ [[]]).
    { apply removelast_last_empty; [exact Hne|].
      destruct (last kept []); [reflexivity | discriminate]. }
    destruct (removelast kept) as [|a A] eqn:Erl.
    + rewrite Hsplit. cbn. split; [reflexivity | discriminate].
    + rewrite Hsplit. rewrite (join_snoc_empty [10] (a :: A)) by discriminate.
      split.
      * intros H. exfalso. apply H. rewrite last_app_r by discriminate. reflexivity.
      * intros _. reflexivity.
  - (* the last kept line is not empty *)
    split; [intros _; reflexivity|].
    assert (Hl : last kept [] <> []) by (destruct (last kept []); [discriminate | discriminate]).
    destruct (last_join [10] kept Hne Hl) as [_ Hlast]. rewrite Hlast.
    intros E. exfalso.
    assert (Hin : In 10 (last kept [])).
    { rewrite <- E. apply in_last. exact Hl. }
    exact (proj1 (Hk _ (in_last kept [] Hne)) Hin).
Qed.

(** ** Body candidates *)

Lemma rstr_eqb_eq (a b : rstr) : rstr_eqb a b = true -> a = b.
Proof. unfold rstr_eqb. destruct (list_eq_dec Z.eq_dec a b); [tauto | discriminate]. Qed.

Lemma starts_with_refl (s : rstr) : starts_with s s = true.
Proof. induction s as [|c s IH]; [reflexivity|]. cbn. rewrite Z.eqb_refl. exact IH. Qed.

Lemma collect_text_bodies_sound (m : mail) (prefix : rstr) :
  forall out b, In b (collect_text_bodies m prefix out) ->
  In b out \/
  exists leaf, In leaf (leaves m) /\ subparts leaf = [] /\
    starts_with (to_ascii_lowercase (mimetype leaf)) prefix = true /\
    is_attachment_disposition leaf = false /\ get_body leaf = Some b.
Proof.
  induction m as [hs ct body raw subs IH] using mail_ind.
  destruct subs as [|p ps].
  - intros out b. cbn [collect_text_bodies leaves].
    destruct (rstr_eqb _ _ || starts_with _ _) eqn:Ec; [|intros H; left; exact H].
    destruct (is_attachment_disposition _) eqn:Ea; [intros H; left; exact H|].
    destruct body as [body|]; [|intros H; left; exact H].
    destruct (is_empty (trim body)); [intros H; left; exact H|].
    intros H. apply in_app_or in H as [H|[<-|[]]]; [left; exact H|].
    right. exists (Mail hs ct (Some body) raw []).
    split; [left; reflexivity|]. cbn [subparts mimetype get_body].
    split; [reflexivity|]. split; [|split; [exact Ea | reflexivity]].
    apply orb_true_iff in Ec as [Ec|Ec]; [|exact Ec].
    rewrite (rstr_eqb_eq _ _ Ec). apply starts_with_refl.
  - cbn [collect_text_bodies leaves]. revert IH. generalize (p :: ps). intros l IH.
    induction IH as [|q Hq l Hall IHl]; intros out b H.
    + left. exact H.
    + cbn [fold_left] in H. destruct (IHl _ _ H) as [H1|(leaf & Hl & R)].
      * destruct (Hq _ _ H1) as [H2|(leaf & Hl & R)]; [left; exact H2|].
        right. exists leaf. split; [cbn; apply in_or_app; left; exact Hl | exact R].
      * right. exists leaf. split; [cbn; apply in_or_app; right; exact Hl | exact R].
Qed.

(** Claim C8: every body candidate collected for a MIME prefix is the body
    of a leaf whose MIME type starts with that prefix and which is not
    disposed as an attachment; for a multipart/mixed message with a plain
    part "Body text here." and a text/plain part marked
    [Content-Disposition: attachment; filename="note.txt"], the attachment is
    not a candidate and "Body text here." is selected. *)
Theorem text_body_candidates_not_attachments :
  (forall m prefix b, In b (collect_text_bodies m prefix []) ->
   exists leaf, In leaf (leaves m) /\ subparts leaf = [] /\
     starts_with (to_ascii_lowercase (mimetype leaf)) prefix = true /\
     is_attachment_disposition leaf = false /\ get_body leaf = Some b) /\
  collect_text_bodies mixed_mail (of_string "text/plain") [] = [of_string "Body text here."] /\
  choose_best_body_text mixed_mail = Some (of_string "Body text here.") /\
  fst (select_email_bodies mixed_mail) = Some (of_string "Body text here.").
Proof.
  split.
  - intros m prefix b H. destruct (collect_text_bodies_sound m prefix [] b H) as [[]|R]. exact R.
  - vm_compute. repeat split.
Qed.

(** ** Replacing a banner-only text body *)

Lemma starts_with_in (s p : rstr) (x : rchar) : starts_with s p = true -> In x p -> In x s.
Proof.
  revert s. induction p as [|c p IH]; intros s H Hx; [destruct Hx|].
  destruct s as [|d s]; [discriminate|]. cbn in H. apply andb_true_iff in H as [Hc H].
  apply Z.eqb_eq in Hc. subst d. destruct Hx as [<-|Hx]; [left; reflexivity | right; exact (IH s H Hx)].
Qed.

Lemma contains_in (s p : rstr) (x : rchar) : contains s p = true -> In x p -> In x s.
Proof.
  induction s as [|d s IH]; intros H Hx; cbn in H.
  - exact (starts_with_in [] p x H Hx).
  - apply orb_true_iff in H as [H|H].
    + exact (starts_with_in (d :: s) p x H Hx).
    + right. exact (IH H Hx).
Qed.

(** A text whose lowercase form contains ["external"] has an ASCII letter. *)
Lemma external_has_alnum (text : rstr) :
  contains (to_ascii_lowercase text) (of_string "external") = true ->
  (0 < core_alnum_len text)%nat.
Proof.
  intros H. assert (He : In 101 (to_ascii_lowercase text))
    by (apply (contains_in _ _ _ H); left; reflexivity).
  unfold to_ascii_lowercase in He. apply in_map_iff in He as (c & Hc & Hin).
  assert (Ha : is_ascii_alphanumeric c = true).
  { unfold char_to_ascii_lowercase in Hc.
    destruct ((65 <=? c) && (c <=? 90)) eqn:E.
    - assert (c = 69) by lia. subst c. reflexivity.
    - subst c. reflexivity. }
  unfold core_alnum_len.
  destruct (filter is_ascii_alphanumeric text) eqn:Ef; [|cbn; lia].
  exfalso. assert (Hf : In c (filter is_ascii_alphanumeric text)) by (apply filter_In; auto).
  rewrite Ef in Hf. destruct Hf.
Qed.

(** The three conditions of the spec decide [is_mostly_external_banner]. *)
Lemma is_mostly_external_banner_iff (text : rstr) :
  is_mostly_external_banner text = true <->
  contains (to_ascii_lowercase text) (of_string "external") = true /\
  (core_alnum_len text < 220)%nat /\
  (core_alnum_len (strip_external_banner_lines text) < 40)%nat.
Proof.
  unfold is_mostly_external_banner.
  destruct (contains (to_ascii_lowercase text) (of_string "external")) eqn:E; cbn [negb].
  - pose proof (external_has_alnum text E).
    rewrite !andb_true_iff, !Nat.ltb_lt. intuition.
  - split; [discriminate | intros [H _]; discriminate H].
Qed.

(** Claim C6: when the chosen text/plain body is "mostly banner" (its
    lowercase form contains "external", it has fewer than 220 ASCII
    alphanumerics, and fewer than 40 after banner-line filtering) and an
    HTML body was chosen, the stored text body is the banner-filtered,
    tag-stripped, trimmed derivation of the HTML body when that keeps at
    least 20 ASCII alphanumerics, and absent otherwise; the HTML body is
    stored as chosen. *)
Theorem select_email_bodies_banner_text (m : mail) (bt bh : rstr) :
  choose_best_body_text m = Some bt ->
  choose_best_body_html m = Some bh ->
  contains (to_ascii_lowercase bt) (of_string "external") = true ->
  (core_alnum_len bt < 220)%nat ->
  (core_alnum_len (strip_external_banner_lines bt) < 40)%nat ->
  select_email_bodies m =
  (if Nat.leb 20 (core_alnum_len (trim (strip_external_banner_lines (html_to_text_rough bh))))
   then Some (trim (strip_external_banner_lines (html_to_text_rough bh)))
   else None,
   Some bh).
Proof.
  intros Ht Hh He H220 H40. unfold select_email_bodies. rewrite Ht, Hh.
  assert (Hb : is_mostly_external_banner bt = true)
    by (apply is_mostly_external_banner_iff; auto).
  rewrite Hb. destruct (Nat.leb 20 _); reflexivity.
Qed.

Lemma select_email_bodies_banner_text_witness :
  let bt := of_string "CAUTION: This email originated from outside the organisation (external)." in
  let bh := of_string "<p>Please find the quarterly report attached.</p>" in
  select_email_bodies banner_text_mail =
  (if Nat.leb 20 (core_alnum_len (trim (strip_external_banner_lines (html_to_text_rough bh))))
   then Some (trim (strip_external_banner_lines (html_to_text_rough bh)))
   else None,
   Some bh) /\
  fst (select_email_bodies banner_text_mail)
    = Some (of_string "Please find the quarterly report attached.").
Proof.
  intros bt bh. split.
  - apply (select_email_bodies_banner_text banner_text_mail bt bh);
      first [vm_compute; reflexivity | apply Nat.ltb_lt; vm_compute; reflexivity].
  - vm_compute. reflexivity.
Defined.

(* ------------------------------------------------------------------ *)
(** ** CSV rows *)








(** ** Hexadecimal digests and UUID strings *)

Lemma sha256_byte_range (msg : list Z) (b : Z) : In b (Sha256.sha256 msg) -> 0 <= b < 256.
Proof.
  unfold Sha256.sha256. cbv zeta. intros H. apply in_flat_map in H as (w & _ & Hw).
  unfold Sha256.be_bytes in Hw. apply in_map_iff in Hw as (i & <- & _).
  change 0xFF with (Z.ones 8). rewrite Z.land_ones by lia. apply Z.mod_pos_bound. lia.
Qed.

Lemma hex_digit_spec (n : Z) :
  0 <= n < 16 -> is_lower_hex (hex_digit n) = true /\ hex_value (hex_digit n) = n.
Proof.
  intros Hn. rewrite <- (Z2Nat.id n) by lia.
  assert (Hk : (Z.to_nat n < 16)%nat) by lia. generalize (Z.to_nat n) Hk. clear.
  intros k Hk. do 16 (destruct k as [|k]; [split; reflexivity|]). lia.
Qed.

Lemma hex_byte_spec (b : Z) :
  0 <= b < 256 ->
  forallb is_lower_hex (hex_byte b) = true /\ hex_decode (hex_byte b) = [b].
Proof.
  intros Hb. unfold hex_byte.
  rewrite Z.shiftr_div_pow2 by lia. change 15 with (Z.ones 4). rewrite Z.land_ones by lia.
  change (2 ^ 4) with 16.
  destruct (hex_digit_spec (b / 16)) as [A1 A2]; [Z.div_mod_to_equations; lia|].
  destruct (hex_digit_spec (b mod 16)) as [B1 B2]; [Z.div_mod_to_equations; lia|].
  cbn [forallb hex_decode]. rewrite A1, B1, A2, B2. split; [reflexivity|].
  f_equal. Z.div_mod_to_equations. lia.
Qed.

Lemma hex_decode_cons2 (h l : rchar) (s : rstr) :
  hex_decode (h :: l :: s) = (16 * hex_value h + hex_value l) :: hex_decode s.
Proof. reflexivity. Qed.

Lemma hex_of_spec (bs : list Z) :
  (forall b, In b bs -> 0 <= b < 256) ->
  length (hex_of bs) = (2 * length bs)%nat /\ forallb is_lower_hex (hex_of bs) = true /\
  hex_decode (hex_of bs) = bs.
Proof.
  induction bs as [|b bs IH]; intros H; [repeat split|].
  destruct IH as (L & F & D); [intros x Hx; apply H; right; exact Hx|].
  destruct (hex_byte_spec b) as [F1 D1]; [apply H; left; reflexivity|].
  change (hex_of (b :: bs)) with (hex_byte b ++ hex_of bs).
  rewrite length_app, forallb_app, F1, F, L. change (length (hex_byte b)) with 2%nat.
  cbn [length andb]. split; [lia|split; [reflexivity|]].
  revert D1. unfold hex_byte. change ([?x; ?y] ++ ?r) with (x :: y :: r).
  rewrite !hex_decode_cons2. cbn [hex_decode]. intros D1.
  rewrite D. f_equal. injection D1. intros E. exact E.
Qed.

Lemma stable_uuid_bytes (seed : rstr) :
  let u := stable_uuid seed in
  length u = 16%nat /\ (forall x, In x u -> 0 <= x < 256) /\
  Z.shiftr (nth 6 u 0) 4 = 5 /\ Z.shiftr (nth 8 u 0) 6 = 2.
Proof.
  intros u. unfold u, stable_uuid.
  pose proof (sha256_length (as_bytes seed)) as Hl.
  pose proof (sha256_byte_range (as_bytes seed)) as Hr.
  set (d := Sha256.sha256 (as_bytes seed)) in *. clearbody d.
  do 16 (destruct d as [|? d]; [discriminate Hl|]).
  cbn [firstn nth set_nth length].
  destruct (lor_land_const z5 0x0F 0x50 4) as (A1 & A2 & A3); try reflexivity; try lia.
  destruct (lor_land_const z7 0x3F 0x80 6) as (B1 & B2 & B3); try reflexivity; try lia.
  pose proof (byte_of_shiftr _ 4 5 ltac:(lia) A3 A1).
  pose proof (byte_of_shiftr _ 6 2 ltac:(lia) B3 B1).
  split; [reflexivity|]. split; [|split; assumption].
  intros x Hx.
  repeat (destruct Hx as [Hx|Hx]; [subst x; first [lia | apply Hr; cbn; auto 20] |]).
  destruct Hx.
Qed.

Lemma forallb_not_in (f : rchar -> bool) (l : rstr) (c : rchar) :
  forallb f l = true -> f c = false -> ~ In c l.
Proof.
  intros H Hc Hin. rewrite forallb_forall in H. rewrite (H c Hin) in Hc. discriminate.
Qed.


Lemma hex_of_no_dash (bs : list Z) :
  (forall b, In b bs -> 0 <= b < 256) -> ~ In 45 (hex_of bs).
Proof.
  intros H. apply (forallb_not_in is_lower_hex); [apply (hex_of_spec bs H) | reflexivity].
Qed.

Lemma in_firstn_l {A} (n : nat) (l : list A) (x : A) : In x (firstn n l) -> In x l.
Proof. intros H. rewrite <- (firstn_skipn n l). apply in_or_app. left. exact H. Qed.

Lemma in_skipn_l {A} (n : nat) (l : list A) (x : A) : In x (skipn n l) -> In x l.
Proof. intros H. rewrite <- (firstn_skipn n l). apply in_or_app. right. exact H. Qed.

(** The five groups of a UUID string. *)
Lemma uuid_to_string_groups (b : list Z) :
  (forall x, In x b -> 0 <= x < 256) ->
  split_on 45 (uuid_to_string b) =
  [hex_of (firstn 4 b); hex_of (firstn 2 (skipn 4 b)); hex_of (firstn 2 (skipn 6 b));
   hex_of (firstn 2 (skipn 8 b)); hex_of (skipn 10 b)].
Proof.
  intros H. unfold uuid_to_string. cbn [app].
  assert (Hf : forall n l, (forall x, In x l -> In x b) -> ~ In 45 (hex_of (firstn n l)))
    by (intros n l Hl; apply hex_of_no_dash; intros x Hx; apply H, Hl, (in_firstn_l n), Hx).
  assert (Hs : forall n, (forall x, In x (skipn n b) -> In x b))
    by (intros n x; apply in_skipn_l).
  rewrite split_on_sep by (apply Hf; auto).
  rewrite split_on_sep by (apply Hf, Hs).
  rewrite split_on_sep by (apply Hf, Hs).
  rewrite split_on_sep by (apply Hf, Hs).
  rewrite split_on_absent by (apply hex_of_no_dash; intros x Hx; apply H, (in_skipn_l 10), Hx).
  reflexivity.
Qed.

(** ** Extra properties *)



(** [sha256_bytes] gives 64 lowercase hexadecimal digits, which spell the
    32 bytes of the digest. *)
Theorem sha256_bytes_hex (bytes : list Z) :
  length (sha256_bytes bytes) = 64%nat /\
  forallb is_lower_hex (sha256_bytes bytes) = true /\
  hex_decode (sha256_bytes bytes) = Sha256.sha256 bytes.
Proof.
  unfold sha256_bytes. destruct (hex_of_spec (Sha256.sha256 bytes)) as (L & F & D).
  - apply sha256_byte_range.
  - rewrite L, sha256_length. split; [reflexivity | split; assumption].
Qed.

(** The string form of [stable_uuid seed] (as written to the records) has
    five groups of 8, 4, 4, 4 and 12 lowercase hex digits separated by [-];
    its version digit (index 14) is [5] and its variant digit (index 19)
    is one of [8], [9], [a], [b]. *)
Theorem stable_uuid_string_form (seed : rstr) :
  let s := uuid_to_string (stable_uuid seed) in
  map (@length Z) (split_on 45 s) = [8; 4; 4; 4; 12]%nat /\
  Forall (fun g => forallb is_lower_hex g = true) (split_on 45 s) /\
  nth 14 s 0 = 53 /\ In (nth 19 s 0) [56; 57; 97; 98].
Proof.
  intros s. unfold s. destruct (stable_uuid_bytes seed) as (Hl & Hr & H6 & H8).
  revert Hl Hr H6 H8. generalize (stable_uuid seed). intros u Hl Hr H6 H8.
  rewrite (uuid_to_string_groups u Hr).
  assert (Hsub : forall l, (forall x, In x l -> In x u) -> forallb is_lower_hex (hex_of l) = true)
    by (intros l Hl'; apply hex_of_spec; intros x Hx; apply Hr, Hl', Hx).
  split; [|split; [|split]].
  - do 16 (destruct u as [|? u]; [discriminate Hl|]). destruct u; [|discriminate Hl].
    reflexivity.
  - repeat constructor; apply Hsub; intros x Hx;
      repeat first [apply (in_firstn_l _ _ _ Hx) | apply (in_skipn_l _ _ _ Hx)
                   | apply in_skipn_l in Hx | apply in_firstn_l in Hx]; exact Hx.
  - do 16 (destruct u as [|? u]; [discriminate Hl|]). destruct u; [|discriminate Hl].
    cbn [nth] in H6. unfold uuid_to_string, hex_of, hex_byte.
    cbn [firstn skipn flat_map app nth]. rewrite H6. reflexivity.
  - do 16 (destruct u as [|? u]; [discriminate Hl|]). destruct u; [|discriminate Hl].
    cbn [nth] in H8. unfold uuid_to_string, hex_of, hex_byte.
    cbn [firstn skipn flat_map app nth].
    assert (R : 0 <= z7 < 256) by (apply Hr; cbn; auto 20).
    rewrite Z.shiftr_div_pow2 in H8 |- * by lia. change (2 ^ 6) with 64 in H8.
    change (2 ^ 4) with 16.
    assert (Hc : z7 / 16 = 8 \/ z7 / 16 = 9 \/ z7 / 16 = 10 \/ z7 / 16 = 11)
      by (Z.div_mod_to_equations; lia).
    destruct Hc as [E | [E | [E | E]]]; rewrite E; cbn; auto.
Qed.


(** ** Trimming *)

Lemma trim_start_matches_skipn (p : rchar -> bool) (s : rstr) :
  exists k, trim_start_matches p s = skipn k s.
Proof.
  induction s as [|c s IH]; [exists 0%nat; reflexivity|]. cbn [trim_start_matches].
  destruct (p c); [destruct IH as [k Hk]; exists (S k); exact Hk | exists 0%nat; reflexivity].
Qed.

Lemma trim_start_matches_head (p : rchar -> bool) (s : rstr) :
  match trim_start_matches p s with [] => True | c :: _ => p c = false end.
Proof.
  induction s as [|c s IH]; [exact I|]. cbn [trim_start_matches].
  destruct (p c) eqn:E; [exact IH | exact E].
Qed.

Lemma trim_start_matches_stable (p : rchar -> bool) (s : rstr) :
  match s with [] => True | c :: _ => p c = false end -> trim_start_matches p s = s.
Proof. destruct s as [|c s]; [reflexivity|]. cbn. intros E. rewrite E. reflexivity. Qed.

Lemma trim_start_matches_idem (p : rchar -> bool) (s : rstr) :
  trim_start_matches p (trim_start_matches p s) = trim_start_matches p s.
Proof. apply trim_start_matches_stable, trim_start_matches_head. Qed.

Lemma trim_idem (s : rstr) : trim (trim s) = trim s.
Proof.
  unfold trim, trim_matches, trim_end_matches.
  pose proof (trim_start_matches_head is_whitespace s) as Ha.
  generalize dependent (trim_start_matches is_whitespace s). intros a Ha.
  destruct (trim_start_matches_skipn is_whitespace (rev a)) as [k Hk].
  assert (Hb : trim_start_matches is_whitespace (rev (trim_start_matches is_whitespace (rev a)))
               = rev (trim_start_matches is_whitespace (rev a))).
  { apply trim_start_matches_stable. rewrite Hk, skipn_rev, rev_involutive.
    destruct (length a - k)%nat as [|j]; [exact I|].
    destruct a as [|c a']; [exact I | exact Ha]. }
  rewrite Hb, rev_involutive, trim_start_matches_idem. reflexivity.
Qed.

(** ** Headers with several values *)

Lemma find_filter {A} (f : A -> bool) (l : list A) (x : A) :
  List.find f l = Some x -> exists r, filter f l = x :: r.
Proof.
  induction l as [|a l IH]; cbn; [discriminate|].
  destruct (f a) eqn:E; [intros H; injection H as <-; eexists; reflexivity | exact IH].
Qed.

(** ** Tag stripping *)

Lemma html_to_text_go_in (b : bool) (s : rstr) (c : rchar) :
  In c (html_to_text_go b s) -> In c s /\ c <> 60 /\ c <> 62.
Proof.
  revert b. induction s as [|d s IH]; intros b H; [destruct H|]. cbn [html_to_text_go] in H.
  destruct (Z.eqb_spec d 60) as [_|H60];
    [destruct (IH _ H) as [H1 H2]; split; [right; exact H1 | exact H2]|].
  destruct (Z.eqb_spec d 62) as [_|H62];
    [destruct (IH _ H) as [H1 H2]; split; [right; exact H1 | exact H2]|].
  destruct b; [destruct (IH _ H) as [H1 H2]; split; [right; exact H1 | exact H2]|].
  destruct H as [<-|H]; [split; [left; reflexivity | split; assumption]|].
  destruct (IH _ H) as [H1 H2]; split; [right; exact H1 | exact H2].
Qed.

Lemma html_to_text_go_plain (s : rstr) :
  ~ In 60 s -> ~ In 62 s -> html_to_text_go false s = s.
Proof.
  induction s as [|d s IH]; intros H1 H2; [reflexivity|]. cbn [html_to_text_go].
  destruct (Z.eqb_spec d 60) as [->|_]; [exfalso; apply H1; left; reflexivity|].
  destruct (Z.eqb_spec d 62) as [->|_]; [exfalso; apply H2; left; reflexivity|].
  f_equal. apply IH; intros H; [apply H1 | apply H2]; right; exact H.
Qed.

Lemma html_to_text_go_length (b : bool) (s : rstr) :
  (length (html_to_text_go b s) <= length s)%nat.
Proof.
  revert b. induction s as [|d s IH]; intros b; [cbn; lia|]. cbn [html_to_text_go length].
  destruct (d =? 60); [specialize (IH true); lia|].
  destruct (d =? 62); [specialize (IH false); lia|].
  destruct b; [specialize (IH true); lia | cbn [length]; specialize (IH false); lia].
Qed.

(** ** Newline normalisation *)

Lemma replace_crlf_cons2 (c d : rchar) (s : rstr) :
  replace_crlf (c :: d :: s) =
  if (c =? 13) && (d =? 10) then 10 :: replace_crlf s else c :: replace_crlf (d :: s).
Proof. reflexivity. Qed.

Lemma replace_crlf_filter (s : rstr) :
  filter (fun c => negb ((c =? 10) || (c =? 13))) (replace_crlf s) =
  filter (fun c => negb ((c =? 10) || (c =? 13))) s.
Proof.
  remember (length s) as n eqn:En. revert s En.
  induction n as [n IH] using lt_wf_ind. intros s En.
  destruct s as [|c [|d s]]; [reflexivity | reflexivity|].
  rewrite replace_crlf_cons2. destruct ((c =? 13) && (d =? 10)) eqn:E.
  - apply andb_true_iff in E as [E1 E2]. apply Z.eqb_eq in E1, E2. subst c d.
    change (filter (fun c => negb ((c =? 10) || (c =? 13))) (replace_crlf s) =
            filter (fun c => negb ((c =? 10) || (c =? 13))) s).
    apply (IH (length s)); [cbn in En; lia | reflexivity].
  - change (filter (fun c => negb ((c =? 10) || (c =? 13))) (c :: replace_crlf (d :: s)) =
            filter (fun c => negb ((c =? 10) || (c =? 13))) (c :: d :: s)).
    cbn [filter]. rewrite (IH (length (d :: s)) ltac:(cbn in En |- *; lia) (d :: s) eq_refl).
    reflexivity.
Qed.

Lemma replace_cr_filter (s : rstr) :
  filter (fun c => negb ((c =? 10) || (c =? 13))) (replace_char 13 [10] s) =
  filter (fun c => negb ((c =? 10) || (c =? 13))) s.
Proof.
  induction s as [|a s IH]; [reflexivity|].
  rewrite replace_char_cons, filter_app. unfold rchar in *. rewrite IH.
  destruct (Z.eqb_spec a 13) as [->|_]; cbn [filter app]; [reflexivity|]. destruct (negb _); reflexivity.
Qed.

Lemma normalize_newlines_filter (s : rstr) :
  filter (fun c => negb ((c =? 10) || (c =? 13))) (normalize_newlines s) =
  filter (fun c => negb ((c =? 10) || (c =? 13))) s.
Proof. unfold normalize_newlines. rewrite replace_cr_filter. apply replace_crlf_filter. Qed.

(** ** Alphanumeric counts *)

Lemma cal_app (a b : rstr) : core_alnum_len (a ++ b) = (core_alnum_len a + core_alnum_len b)%nat.
Proof. unfold core_alnum_len. rewrite filter_app, length_app. reflexivity. Qed.

Lemma join_cons (sep x : rstr) (xs : list rstr) :
  join sep (x :: xs) = x ++ match xs with [] => [] | _ => sep ++ join sep xs end.
Proof. destruct xs; [rewrite app_nil_r|]; reflexivity. Qed.

Lemma cal_join (L : list rstr) : core_alnum_len (join [10] L) = list_sum (map core_alnum_len L).
Proof.
  induction L as [|x L IH]; [reflexivity|].
  destruct L as [|y L]; cbn [map list_sum] in *.
  - cbn [join]. cbn [list_sum fold_right]. lia.
  - change (join [10] (x :: y :: L)) with (x ++ [10] ++ join [10] (y :: L)).
    rewrite !cal_app, IH. change (core_alnum_len [10]) with 0%nat. cbn [list_sum fold_right]. lia.
Qed.

Lemma sum_filter_le (p : rstr -> bool) (L : list rstr) :
  (list_sum (map core_alnum_len (filter p L)) <= list_sum (map core_alnum_len L))%nat.
Proof.
  induction L as [|x L IH]; cbn [filter map list_sum fold_right]; [lia|].
  unfold list_sum in *. destruct (p x); cbn [map fold_right] in *; lia.
Qed.

Lemma cal_strip_cr (x : rstr) : (core_alnum_len (strip_cr x) <= core_alnum_len x)%nat.
Proof.
  unfold strip_cr. destruct (rev x) as [|c r] eqn:E; [lia|]. destruct (c =? 13); [|lia].
  rewrite <- (rev_involutive x), E. cbn [rev]. rewrite cal_app. lia.
Qed.

Lemma join_split_on (c : rchar) (t : rstr) : join [c] (split_on c t) = t.
Proof.
  induction t as [|d t IH]; [reflexivity|]. cbn [split_on].
  destruct (split_on c t) as [|x xs] eqn:E; [exfalso; exact (split_on_not_nil c t E)|].
  destruct (Z.eqb_spec d c) as [->|_].
  - change (join [c] ([] :: x :: xs)) with ([] ++ [c] ++ join [c] (x :: xs)).
    rewrite IH. reflexivity.
  - destruct xs; cbn [join app] in *; rewrite IH; reflexivity.
Qed.

Lemma sum_strip_cr_le (l : list rstr) :
  (list_sum (map core_alnum_len (map strip_cr l)) <= list_sum (map core_alnum_len l))%nat.
Proof.
  induction l as [|x l IH]; unfold list_sum in *; cbn [map fold_right] in *; [lia|]. pose proof (cal_strip_cr x). lia.
Qed.

Lemma cal_lines (t : rstr) : (list_sum (map core_alnum_len (lines t)) <= core_alnum_len t)%nat.
Proof.
  unfold lines.
  assert (Hne : split_on 10 t <> []) by apply split_on_not_nil.
  assert (Hsum : core_alnum_len t =
                 (list_sum (map core_alnum_len (removelast (split_on 10%Z t)))
                  + core_alnum_len (last (split_on 10%Z t) []))%nat).
  { rewrite <- (join_split_on 10%Z t) at 1. rewrite cal_join.
    rewrite (app_removelast_last [] Hne) at 1. rewrite map_app, list_sum_app.
    cbn [map]. unfold list_sum at 2. cbn [fold_right]. rewrite Nat.add_0_r. reflexivity. }
  rewrite Hsum, map_app, list_sum_app. pose proof (sum_strip_cr_le (removelast (split_on 10%Z t))).
  destruct (is_empty _); cbn [map]; unfold list_sum at 2; cbn [fold_right]; lia.
Qed.

Lemma filter_filter_impl {A} (f g : A -> bool) (l : list A) :
  (forall x, f x = true -> g x = true) -> filter f (filter g l) = filter f l.
Proof.
  induction l as [|a l IH]; intros H; [reflexivity|]. cbn [filter].
  destruct (g a) eqn:Eg; cbn [filter].
  - destruct (f a); rewrite IH by exact H; reflexivity.
  - destruct (f a) eqn:Ef; [rewrite (H a Ef) in Eg; discriminate | apply IH, H].
Qed.

Lemma alnum_not_newline (x : rchar) :
  is_ascii_alphanumeric x = true -> negb ((x =? 10) || (x =? 13)) = true.
Proof.
  intros Hx. destruct (Z.eqb_spec x 10) as [->|]; [discriminate Hx|].
  destruct (Z.eqb_spec x 13) as [->|]; [discriminate Hx | reflexivity].
Qed.

Lemma cal_normalize (text : rstr) : core_alnum_len (normalize_newlines text) = core_alnum_len text.
Proof.
  unfold core_alnum_len.
  rewrite <- (filter_filter_impl _ _ (normalize_newlines text) alnum_not_newline).
  rewrite <- (filter_filter_impl _ _ text alnum_not_newline).
  rewrite normalize_newlines_filter. reflexivity.
Qed.

(** The values [header_all] returns are trimmed and non-empty; when
    [header_first] finds a value, it is the first of them. (When the first
    header of that name is blank, [header_first] is [None] while
    [header_all] may still list later values.) *)
Theorem header_all_first (m : mail) (name : rstr) :
  (forall v, header_first m name = Some v -> exists rest, header_all m name = v :: rest) /\
  (forall v, In v (header_all m name) -> v <> [] /\ trim v = v).
Proof.
  split.
  - intros v. unfold header_first, header_all, get_first_value, get_all_values.
    destruct (List.find _ (headers m)) as [h|] eqn:E; cbn [option_map]; [|discriminate].
    destruct (find_filter _ _ _ E) as [r Hr]. rewrite Hr. cbn [map filter].
    destruct (is_empty (trim (snd h))) eqn:Ee; [discriminate|]. intros H. injection H as <-.
    cbn [negb]. eexists. reflexivity.
  - intros v Hv. unfold header_all in Hv. apply filter_In in Hv as [Hv He].
    apply in_map_iff in Hv as (w & <- & _). split.
    + intros E. rewrite E in He. discriminate.
    + apply trim_idem.
Qed.

(** [html_to_text_rough] removes every [<] and [>], keeps only characters of
    its input (never lengthening it), leaves a text without [<] and [>]
    unchanged, and so is idempotent. *)
Theorem html_to_text_rough_props (html : rstr) :
  let t := html_to_text_rough html in
  ~ In 60 t /\ ~ In 62 t /\ (length t <= length html)%nat /\
  (forall c, In c t -> In c html) /\
  (~ In 60 html -> ~ In 62 html -> t = html) /\
  html_to_text_rough t = t.
Proof.
  intros t. unfold t, html_to_text_rough.
  assert (H60 : ~ In 60 (html_to_text_go false html))
    by (intros H; destruct (html_to_text_go_in _ _ _ H) as (_ & E & _); apply E; reflexivity).
  assert (H62 : ~ In 62 (html_to_text_go false html))
    by (intros H; destruct (html_to_text_go_in _ _ _ H) as (_ & _ & E); apply E; reflexivity).
  split; [exact H60|]. split; [exact H62|]. split; [apply html_to_text_go_length|].
  split; [intros c Hc; apply (html_to_text_go_in _ _ _ Hc)|].
  split; [apply html_to_text_go_plain|].
  apply html_to_text_go_plain; assumption.
Qed.

(** [normalize_newlines] leaves no CR, is idempotent, and changes nothing
    but line breaks: with CR and LF removed, its output and input agree. *)
Theorem normalize_newlines_props (text : rstr) :
  ~ In 13 (normalize_newlines text) /\
  normalize_newlines (normalize_newlines text) = normalize_newlines text /\
  filter (fun c => negb ((c =? 10) || (c =? 13))) (normalize_newlines text) =
  filter (fun c => negb ((c =? 10) || (c =? 13))) text.
Proof.
  split; [apply normalize_newlines_no_cr|]. split; [|apply normalize_newlines_filter].
  apply normalize_newlines_no_cr_id, normalize_newlines_no_cr.
Qed.

(** The output of [strip_external_banner_lines] has no CR, and never more
    ASCII alphanumerics than its input: the filter only removes content. *)
Theorem strip_external_banner_lines_bounds (text : rstr) :
  ~ In 13 (strip_external_banner_lines text) /\
  (core_alnum_len (strip_external_banner_lines text) <= core_alnum_len text)%nat.
Proof.
  rewrite strip_external_banner_lines_filter. split.
  - intros H. destruct (in_join _ _ _ H) as [[E|[]]|(x & Hx & Hy)]; [discriminate E|].
    apply filter_In in Hx as [Hx _]. destruct (lines_pieces _ _ _ Hx Hy) as [Hn _].
    exact (normalize_newlines_no_cr text Hn).
  - rewrite cal_join, <- cal_normalize.
    eapply Nat.le_trans; [apply sum_filter_le | apply cal_lines].
Qed.


(** ** Byte offsets *)

Lemma len_utf8_pos (c : rchar) : (1 <= len_utf8 c)%nat.
Proof.
  unfold len_utf8, utf8_char.
  destruct (c <? 0x80); [|destruct (c <? 0x800); [|destruct (c <? 0x10000)]]; cbn; lia.
Qed.

Lemma len_app (a b : rstr) : len (a ++ b) = (len a + len b)%nat.
Proof. unfold len, as_bytes. rewrite flat_map_app. apply length_app. Qed.

Lemma char_index_app (a b : rstr) : char_index (a ++ b) (len a) = Some (length a).
Proof.
  induction a as [|c a IH]; [destruct b; reflexivity|]. rewrite len_cons. cbn [app length].
  pose proof (len_utf8_pos c) as Hc.
  destruct (len_utf8 c + len a)%nat as [|n] eqn:En; [lia|]. cbn [char_index].
  rewrite <- En. destruct (Nat.ltb_spec (len_utf8 c + len a) (len_utf8 c)); [lia|].
  replace (len_utf8 c + len a - len_utf8 c)%nat with (len a) by lia.
  rewrite IH. reflexivity.
Qed.

Lemma find_spec (c : rchar) (s : rstr) (k : nat) :
  find c s = Some k -> exists a b, s = a ++ c :: b /\ ~ In c a /\ k = len a.
Proof.
  revert k. induction s as [|d s IH]; intros k H; [discriminate|]. cbn [find] in H.
  destruct (Z.eqb_spec d c) as [->|Hd].
  - injection H as <-. exists [], s. split; [reflexivity | split; [intros [] | reflexivity]].
  - destruct (find c s) as [k'|] eqn:E; [|discriminate]. injection H as <-.
    destruct (IH k' eq_refl) as (a & b & -> & Ha & ->).
    exists (d :: a), b. split; [reflexivity|]. split.
    + intros [E'|E']; [exact (Hd E') | exact (Ha E')].
    + rewrite len_cons. reflexivity.
Qed.

Lemma find_none (c : rchar) (s : rstr) : find c s = None -> ~ In c s.
Proof.
  induction s as [|d s IH]; intros H; [intros []|]. cbn [find] in H.
  destruct (Z.eqb_spec d c) as [->|Hd]; [discriminate|].
  destruct (find c s); [discriminate|]. intros [E|E]; [exact (Hd E) | exact (IH eq_refl E)].
Qed.


Lemma char_index_zero (s : rstr) : char_index s 0 = Some 0%nat.
Proof. destruct s; reflexivity. Qed.

(** [parse_sender] panics exactly when, in the trimmed header, the first
    [>] comes before the first [<]: the slice [start + 1 .. end] is then
    reversed. Every other input gives a result. *)
Theorem parse_sender_panics (h : rstr) :
  parse_sender h = None <->
  exists s e, find 60 (trim h) = Some s /\ find 62 (trim h) = Some e /\ (e < s)%nat.
Proof.
  unfold parse_sender. cbv zeta. generalize (trim h). intros t.
  destruct (is_empty t) eqn:Ee.
  { destruct t; [|discriminate]. split; [discriminate | intros (? & ? & H & _); discriminate H]. }
  destruct (find 60 t) as [s|] eqn:F1;
    [| destruct (contains t _); split; [discriminate | intros (? & ? & H & _); discriminate H | discriminate | intros (? & ? & H & _); discriminate H]].
  destruct (find 62 t) as [e|] eqn:F2;
    [| destruct (contains t _); split; [discriminate | intros (? & ? & _ & H & _); discriminate H | discriminate | intros (? & ? & _ & H & _); discriminate H]].
  destruct (find_spec _ _ _ F1) as (a & b & Et & _ & ->).
  destruct (find_spec _ _ _ F2) as (a' & b' & Et' & _ & ->).
  assert (I1 : char_index t (S (len a)) = Some (S (length a))).
  { unfold rstr, rchar in *. rewrite Et. replace (a ++ 60 :: b) with ((a ++ [60]) ++ b) by (rewrite <- app_assoc; reflexivity).
    replace (S (len a)) with (len (a ++ [60])) by (rewrite len_app; change (len [60]) with 1%nat; lia).
    rewrite char_index_app, length_app. cbn [length]. f_equal. lia. }
  assert (I2 : char_index t (len a') = Some (length a')) by (rewrite Et'; apply char_index_app).
  assert (I3 : char_index t (len a) = Some (length a)) by (rewrite Et; apply char_index_app).
  unfold slice_to, slice. rewrite I1, I2, I3, char_index_zero.
  rewrite Et in Et'. destruct (app_eq_app _ _ _ _ Et') as [l [[Ha Hl] | [Ha Hl]]].
  - (* the first [>] lies before the first [<] *)
    destruct l as [|x l]; [injection Hl; discriminate|]. injection Hl as <- _.
    subst a. rewrite length_app, len_app, len_cons. cbn [length].
    pose proof (len_utf8_pos 62).
    destruct (Nat.leb_spec (S (length a' + S (length l))) (length a')); [lia|].
    split; [intros _ | reflexivity]. exists (len a' + (len_utf8 62%Z + len l))%nat, (len a').
    split; [reflexivity|]. split; [reflexivity | lia].
  - destruct l as [|x l]; [injection Hl; discriminate|]. injection Hl as <- _.
    subst a'. rewrite length_app, len_app, len_cons. cbn [length].
    destruct (Nat.leb_spec (S (length a)) (length a + S (length l))); [|lia].
    split; [discriminate|]. intros (s' & e' & E1 & E2 & Hlt).
    injection E1 as <-. injection E2 as <-.
    lia.
Qed.

(** Witness: a header with [>] before [<] makes [parse_sender] panic. *)
Lemma parse_sender_panics_witness :
  (exists s e, find 60 (trim (of_string "a> b<")) = Some s /\
               find 62 (trim (of_string "a> b<")) = Some e /\ (e < s)%nat) /\
  parse_sender (of_string "a> b<") = None.
Proof.
  assert (H : exists s e, find 60 (trim (of_string "a> b<")) = Some s /\
                          find 62 (trim (of_string "a> b<")) = Some e /\ (e < s)%nat)
    by (exists 4%nat, 1%nat; vm_compute; split; [reflexivity | split; [reflexivity | lia]]).
  split; [exact H | apply (parse_sender_panics (of_string "a> b<")); exact H].
Defined.


(** ** Parameters *)

Lemma trim_start_matches_in (p : rchar -> bool) (s : rstr) (c : rchar) :
  In c (trim_start_matches p s) -> In c s.
Proof.
  destruct (trim_start_matches_skipn p s) as [k ->]. intros H.
  rewrite <- (firstn_skipn k s). apply in_or_app. right. exact H.
Qed.

Lemma trim_matches_in (p : rchar -> bool) (s : rstr) (c : rchar) :
  In c (trim_matches p s) -> In c s.
Proof.
  unfold trim_matches, trim_end_matches. intros H. apply in_rev in H.
  apply trim_start_matches_in, in_rev in H. exact (trim_start_matches_in _ _ _ H).
Qed.

Lemma splitn2_in (c : rchar) (s k v : rstr) (y : rchar) :
  splitn2 c s = (k, Some v) -> In y v -> In y s.
Proof.
  revert k. induction s as [|d s IH]; intros k H Hy; cbn [splitn2] in H; [discriminate|].
  destruct (d =? c).
  - injection H as _ <-. right. exact Hy.
  - destruct (splitn2 c s) as [a b] eqn:E. injection H as _ ->. right. exact (IH a eq_refl Hy).
Qed.

Lemma parse_param_loop_result (parts : list rstr) (key_l r : rstr) :
  parse_param_loop parts key_l = Some r ->
  r <> [] /\ trim r = r /\ exists part, In part parts /\ forall y, In y r -> In y part.
Proof.
  induction parts as [|part parts IH]; cbn [parse_param_loop]; [discriminate|].
  destruct (is_empty (trim part)).
  { intros H. destruct (IH H) as (H1 & H2 & q & Hq & Hy).
    split; [exact H1|]. split; [exact H2|]. exists q. split; [right; exact Hq | exact Hy]. }
  destruct (splitn2 61 (trim part)) as [k0 [v1|]] eqn:Es; [|discriminate].
  destruct (negb _).
  { intros H. destruct (IH H) as (H1 & H2 & q & Hq & Hy).
    split; [exact H1|]. split; [exact H2|]. exists q. split; [right; exact Hq | exact Hy]. }
  destruct (is_empty _) eqn:Ee; [discriminate|]. intros H. injection H as <-.
  split; [intros E; rewrite E in Ee; discriminate|]. split; [apply trim_idem|].
  exists part. split; [left; reflexivity|]. intros y Hy.
  apply trim_matches_in, trim_matches_in, trim_matches_in, trim_matches_in in Hy.
  apply (splitn2_in _ _ _ _ _ Es), trim_matches_in in Hy. exact Hy.
Qed.

Lemma parse_param_result (h key r : rstr) :
  parse_param h key = Some r -> r <> [] /\ trim r = r /\ ~ In 59 r.
Proof.
  unfold parse_param. intros H. destruct (parse_param_loop_result _ _ _ H) as (H1 & H2 & q & Hq & Hy).
  split; [exact H1|]. split; [exact H2|]. intros H59.
  apply (split_on_pieces 59 h q 59); [|exact (Hy _ H59) | reflexivity].
  apply (in_skipn_l 1). exact Hq.
Qed.

Lemma parse_param_has_separator (h key r : rstr) : parse_param h key = Some r -> In 59 h.
Proof.
  intros H. destruct (in_dec Z.eq_dec 59 h) as [I|I]; [exact I|].
  unfold parse_param in H. rewrite (split_on_absent _ _ I) in H. discriminate H.
Qed.

(** ** Leaves of a message *)

Lemma collect_attachment_parts_leaves (m : mail) :
  forall out, collect_attachment_parts m out = out ++ filter is_attachment_part (leaves m).
Proof.
  induction m as [hs ct body raw subs IH] using mail_ind.
  destruct subs as [|p ps].
  - intros out. cbn [collect_attachment_parts leaves filter].
    destruct (is_attachment_part _); [reflexivity | rewrite app_nil_r; reflexivity].
  - cbn [collect_attachment_parts leaves]. revert IH. generalize (p :: ps). intros l IH.
    induction IH as [|q Hq l Hall IHl]; intros out; [rewrite app_nil_r; reflexivity|].
    cbn [fold_left flat_map]. rewrite IHl, Hq, filter_app, app_assoc. reflexivity.
Qed.

Lemma collect_text_bodies_leaf (hs : list (rstr * rstr)) (ct : rstr) (b : option rstr)
  (raw : option (list Z)) (pre : rstr) (out : list rstr) :
  collect_text_bodies (Mail hs ct b raw []) pre out =
  out ++ collect_text_bodies (Mail hs ct b raw []) pre [].
Proof.
  cbn [collect_text_bodies]. destruct (_ || _); [|rewrite app_nil_r; reflexivity].
  destruct (is_attachment_disposition _); [rewrite app_nil_r; reflexivity|].
  destruct b as [body|]; [|rewrite app_nil_r; reflexivity].
  destruct (is_empty _); [rewrite app_nil_r|]; reflexivity.
Qed.

Lemma collect_text_bodies_leaves (m : mail) (pre : rstr) :
  forall out, collect_text_bodies m pre out =
              out ++ flat_map (fun l => collect_text_bodies l pre []) (leaves m).
Proof.
  induction m as [hs ct body raw subs IH] using mail_ind.
  destruct subs as [|p ps].
  - intros out. cbn [leaves flat_map]. rewrite app_nil_r. apply collect_text_bodies_leaf.
  - cbn [collect_text_bodies leaves]. revert IH. generalize (p :: ps). intros l IH.
    induction IH as [|q Hq l Hall IHl]; intros out; [rewrite app_nil_r; reflexivity|].
    cbn [fold_left flat_map]. rewrite IHl, Hq, flat_map_app, app_assoc. reflexivity.
Qed.

(** ** Extra properties (parameters and parts) *)

(** A value returned by [parse_param] is non-empty, trimmed and free of
    [;], and the header it came from has a [;]; the same holds for the
    file name [parse_filename_from_headers] returns. *)
Theorem parse_param_value (h key : rstr) (m : mail) :
  match parse_param h key with
  | Some r => r <> [] /\ trim r = r /\ ~ In 59 r /\ In 59 h
  | None => True
  end /\
  match parse_filename_from_headers m with
  | Some r => r <> [] /\ trim r = r /\ ~ In 59 r
  | None => True
  end.
Proof.
  split.
  - destruct (parse_param h key) as [r|] eqn:E; [|exact I].
    destruct (parse_param_result _ _ _ E) as (H1 & H2 & H3).
    split; [exact H1|]. split; [exact H2|]. split; [exact H3|].
    exact (parse_param_has_separator _ _ _ E).
  - unfold parse_filename_from_headers.
    destruct (header_first m (of_string "Content-Disposition")) as [cd|];
      [destruct (parse_param cd (of_string "filename")) as [r|] eqn:E;
       [exact (parse_param_result _ _ _ E)|]|];
    (destruct (header_first m (of_string "Content-Type")) as [ct|]; [|exact I]);
    (destruct (parse_param ct (of_string "name")) as [r|] eqn:E'; [|exact I]);
    exact (parse_param_result _ _ _ E').
Qed.

(** [is_attachment_part] holds exactly for a leaf part whose MIME type does
    not start with [text/plain] or [text/html] and that has an
    [attachment] disposition or a file name; an [inline] disposition alone
    adds nothing. *)
Theorem is_attachment_part_iff (part : mail) :
  is_attachment_part part = true <->
  subparts part = [] /\
  starts (to_ascii_lowercase (mimetype part)) "text/plain" = false /\
  starts (to_ascii_lowercase (mimetype part)) "text/html" = false /\
  (starts (to_ascii_lowercase
             (unwrap_or_default (header_first part (of_string "Content-Disposition"))))
          "attachment" = true
   \/ parse_filename_from_headers part <> None).
Proof.
  unfold is_attachment_part. destruct (subparts part) as [|q qs].
  2: { split; [discriminate | intros (E & _); discriminate E]. }
  destruct (starts _ "text/plain"); [split; [discriminate | intros (_ & E & _); discriminate E]|].
  destruct (starts _ "text/html"); [split; [discriminate | intros (_ & _ & E & _); discriminate E]|].
  cbn [orb]. destruct (starts _ "attachment").
  - split; [intros _; split; [reflexivity|]; split; [reflexivity|]; split; [reflexivity | left; reflexivity] | reflexivity].
  - destruct (parse_filename_from_headers part) as [f|]; rewrite ?andb_true_r, ?andb_false_r.
    + split; [intros _; split; [reflexivity|]; split; [reflexivity|]; split; [reflexivity | right; discriminate] | match goal with |- context [starts ?x "inline"] => destruct (starts x "inline") end; reflexivity].
    + split; [|intros (_ & _ & _ & [E | E]); [discriminate E | exfalso; apply E; reflexivity]].
      discriminate.
Qed.

(** The attachment parts of a message are its leaf parts that pass
    [is_attachment_part], in document order, after whatever was collected
    before; body candidates likewise concatenate the candidates of its
    leaves. *)
Theorem collect_parts_by_leaves (m : mail) (out : list mail) (pre : rstr) (acc : list rstr) :
  collect_attachment_parts m out = out ++ filter is_attachment_part (leaves m) /\
  collect_text_bodies m pre acc =
  acc ++ flat_map (fun l => collect_text_bodies l pre []) (leaves m).
Proof. split; [apply collect_attachment_parts_leaves | apply collect_text_bodies_leaves]. Qed.

(** A [text/plain] leaf with an [attachment] disposition is neither an
    attachment nor a plain-text body candidate: it is dropped from both. *)
Theorem text_attachment_part_dropped (p m : mail)
  (Hleaf : subparts p = [])
  (Hct : starts_with (to_ascii_lowercase (mimetype p)) (of_string "text/plain") = true)
  (Hcd : is_attachment_disposition p = true) :
  ~ In p (collect_attachment_parts m []) /\
  collect_text_bodies p (of_string "text/plain") [] = [].
Proof.
  assert (Hp : is_attachment_part p = false).
  { unfold is_attachment_part. rewrite Hleaf. unfold starts. rewrite Hct. reflexivity. }
  split.
  - rewrite collect_attachment_parts_leaves. cbn [app]. intros H.
    apply filter_In in H as [_ H]. rewrite Hp in H. discriminate H.
  - destruct p as [hs ct b raw subs]. cbn [subparts mimetype] in *. subst subs.
    cbn [collect_text_bodies]. rewrite Hct, orb_true_r, Hcd. reflexivity.
Qed.

(** Witness: the [note.txt] part of [mixed_mail]. *)
Lemma text_attachment_part_dropped_witness :
  subparts (nth 1 (subparts mixed_mail) mixed_mail) = [] /\
  starts_with (to_ascii_lowercase (mimetype (nth 1 (subparts mixed_mail) mixed_mail)))
              (of_string "text/plain") = true /\
  is_attachment_disposition (nth 1 (subparts mixed_mail) mixed_mail) = true /\
  ~ In (nth 1 (subparts mixed_mail) mixed_mail) (collect_attachment_parts mixed_mail []) /\
  collect_text_bodies (nth 1 (subparts mixed_mail) mixed_mail) (of_string "text/plain") [] = [].
Proof.
  assert (H1 : subparts (nth 1 (subparts mixed_mail) mixed_mail) = []) by reflexivity.
  assert (H2 : starts_with (to_ascii_lowercase (mimetype (nth 1 (subparts mixed_mail) mixed_mail)))
                           (of_string "text/plain") = true) by (vm_compute; reflexivity).
  assert (H3 : is_attachment_disposition (nth 1 (subparts mixed_mail) mixed_mail) = true)
    by (vm_compute; reflexivity).
  split; [exact H1|]. split; [exact H2|]. split; [exact H3|].
  exact (text_attachment_part_dropped _ mixed_mail H1 H2 H3).
Defined.


(** ** The scoring loop *)

Section BestIndex.
Variable score : rstr -> nat.
Variable cands : list rstr.

Lemma best_index_loop (l1 l2 : list rstr) (acc : nat * nat) :
  cands = l1 ++ l2 -> best_inv score cands (length l1) acc ->
  best_inv score cands (length cands)
    (fold_left
       (fun acc ic =>
          let '(best_idx, best_score) := acc in
          let '(idx, c) := ic in
          let s := score c in
          if Nat.ltb best_score s then (idx, s) else (best_idx, best_score))
       (combine (seq (length l1) (length l2)) l2) acc).
Proof.
  revert l1 acc. induction l2 as [|x l2 IH]; intros l1 acc Hc Hi.
  - replace (length cands) with (length l1) by (rewrite Hc, app_nil_r; reflexivity). exact Hi.
  - cbn [length seq combine fold_left]. destruct acc as [bi bs].
    assert (Hx : nth (length l1) cands [] = x) by (rewrite Hc; apply nth_middle).
    assert (Hl : (length l1 < length cands)%nat) by (rewrite Hc, length_app; cbn; lia).
    replace (S (length l1)) with (length (l1 ++ [x])) by (rewrite length_app; cbn; lia).
    apply IH; [rewrite <- app_assoc; exact Hc|]. lazy beta iota zeta.
    rewrite length_app. cbn [length]. destruct Hi as (H1 & H2 & H3). cbn [fst snd] in *.
    destruct (Nat.ltb_spec bs (score x)).
    + split; [right; cbn [fst snd]; rewrite Hx; split; [exact Hl | reflexivity]|].
      split; intros j Hj; cbn [fst snd] in *.
      * destruct (Nat.eq_dec j (length l1)) as [->|Hne];
          [rewrite Hx; lia | specialize (H2 j ltac:(lia)); lia].
      * specialize (H2 j Hj). lia.
    + split; [exact H1|]. split; [|exact H3]. intros j Hj. cbn [snd].
      destruct (Nat.eq_dec j (length l1)) as [->|Hne];
        [rewrite Hx; lia | apply H2; lia].
Qed.

Lemma best_index_spec :
  cands <> [] ->
  (best_index score cands < length cands)%nat /\
  (forall j, (j < best_index score cands)%nat ->
             (score (nth j cands []) < score (nth (best_index score cands) cands []))%nat) /\
  forall j, (j < length cands)%nat ->
            (score (nth j cands []) <= score (nth (best_index score cands) cands []))%nat.
Proof.
  intros Hne. unfold best_index.
  match goal with |- context [fst ?f] =>
    assert (H : best_inv score cands (length cands) f)
      by (apply (best_index_loop [] cands); [reflexivity|];
          split; [left; split; reflexivity | split; intros j Hj; cbn in Hj; lia]) end.
  destruct H as [[[E1 E2] | [E1 E2]] [H2 H3]].
  - split; [rewrite E1; destruct cands; [contradiction | cbn; lia]|].
    split; [rewrite E1; intros j Hj; lia|].
    + intros j Hj. specialize (H2 j Hj). rewrite E1. rewrite E2 in H2.
      assert (E : score (nth j cands []) = 0%nat) by lia. rewrite E. lia.
  - split; [exact E1|]. split; intros j Hj; rewrite <- E2; [apply H3, Hj | apply H2, Hj].
Qed.

End BestIndex.

Lemma choose_best_spec (score : rstr -> nat) (cands : list rstr) :
  match choose_best score cands with
  | None => cands = []
  | Some t =>
      exists i, (i < length cands)%nat /\ t = nth i cands [] /\
        (forall c, In c cands -> (score c <= score t)%nat) /\
        (forall j, (j < i)%nat -> (score (nth j cands []) < score t)%nat)
  end.
Proof.
  unfold choose_best. destruct cands as [|c0 cs] eqn:Ec; [reflexivity|]. rewrite <- Ec.
  assert (Hne : cands <> []) by (rewrite Ec; discriminate).
  destruct (best_index_spec score cands Hne) as (H1 & H2 & H3).
  exists (best_index score cands). split; [exact H1|]. split; [reflexivity|]. split; [|exact H2].
  intros c Hc. destruct (In_nth _ _ [] Hc) as (j & Hj & <-). apply H3, Hj.
Qed.

(** ** Extra properties (body choice) *)

(** [choose_best_body_text] and [choose_best_body_html] return nothing only
    when there is no candidate; otherwise they return the first candidate
    of maximal score: no candidate scores higher, and every earlier one
    scores strictly lower. *)
Theorem choose_best_body_first_max (m : mail) :
  let texts := collect_text_bodies m (of_string "text/plain") [] in
  let htmls := collect_text_bodies m (of_string "text/html") [] in
  match choose_best_body_text m with
  | None => texts = []
  | Some t =>
      exists i, (i < length texts)%nat /\ t = nth i texts [] /\
        (forall c, In c texts -> (score_text c <= score_text t)%nat) /\
        (forall j, (j < i)%nat -> (score_text (nth j texts []) < score_text t)%nat)
  end /\
  match choose_best_body_html m with
  | None => htmls = []
  | Some t =>
      exists i, (i < length htmls)%nat /\ t = nth i htmls [] /\
        (forall c, In c htmls -> (score_html c <= score_html t)%nat) /\
        (forall j, (j < i)%nat -> (score_html (nth j htmls []) < score_html t)%nat)
  end.
Proof. split; apply choose_best_spec. Qed.


(** ** Characters kept by the banner filter *)




Lemma trim_in (s : rstr) (c : rchar) : In c (trim s) -> In c s.
Proof. apply trim_matches_in. Qed.

(** ** Extra properties (body selection) *)



(** ** Decimal digits *)

Lemma decimal_value_snoc (l : rstr) (d : rchar) :
  decimal_value (l ++ [d]) = decimal_value l * 10 + (d - 48).
Proof. unfold decimal_value. rewrite fold_left_app. reflexivity. Qed.

Lemma decimal_go_spec (n : nat) :
  forall fuel, (n < fuel)%nat ->
  let d := decimal_go fuel n in
  forallb is_digit d = true /\ decimal_value d = Z.of_nat n /\ d <> [] /\
  (hd 0 d = 48 -> n = 0%nat).
Proof.
  induction n as [n IH] using lt_wf_ind. intros fuel Hf.
  destruct fuel as [|f]; [lia|]. cbn zeta. cbn [decimal_go].
  destruct (Nat.ltb_spec n 10).
  - unfold is_digit, decimal_value. cbn [forallb fold_left hd].
    split; [rewrite andb_true_r; apply andb_true_iff; split; apply Z.leb_le; lia|].
    split; [lia|]. split; [discriminate|]. intros E. lia.
  - pose proof (Nat.div_mod_eq n 10) as Hdm. pose proof (Nat.mod_upper_bound n 10 ltac:(lia)) as Hm.
    assert (Hq : (Nat.div n 10 < n)%nat) by (apply Nat.div_lt; lia).
    assert (Hq1 : (1 <= Nat.div n 10)%nat) by (apply (Nat.div_le_lower_bound n 10 1); lia).
    destruct (IH (Nat.div n 10) Hq f ltac:(lia)) as (D1 & D2 & D3 & D4).
    split; [rewrite forallb_app, D1; cbn [forallb andb]; unfold is_digit; rewrite andb_true_r;
            apply andb_true_iff; split; apply Z.leb_le; lia|].
    split; [rewrite decimal_value_snoc, D2; lia|].
    split; [destruct (decimal_go f (Nat.div n 10)); discriminate|].
    destruct (decimal_go f (Nat.div n 10)) as [|c0 cs]; [contradiction|]. cbn [hd app].
    intros E. specialize (D4 E). lia.
Qed.

Lemma decimal_length (n k : nat) :
  (1 <= k)%nat -> (Z.of_nat n < 10 ^ Z.of_nat k)%Z -> (length (decimal_go (S n) n) <= k)%nat.
Proof.
  revert k. generalize (S n) (Nat.lt_succ_diag_r n). intros fuel Hf.
  revert fuel Hf. induction n as [n IH] using lt_wf_ind. intros fuel Hf k Hk Hn.
  destruct fuel as [|f]; [lia|]. cbn [decimal_go].
  destruct (Nat.ltb_spec n 10); [cbn; lia|].
  pose proof (Nat.div_mod_eq n 10) as Hdm.
  assert (Hq : (Nat.div n 10 < n)%nat) by (apply Nat.div_lt; lia).
  destruct k as [|[|k]]; [lia | cbn in Hn; lia|].
  rewrite length_app. cbn [length].
  enough ((length (decimal_go f (Nat.div n 10)) <= S k)%nat) by lia.
  apply IH; [exact Hq | lia | lia|].
  rewrite Nat2Z.inj_succ, Z.pow_succ_r in Hn by lia.
  rewrite Nat2Z.inj_succ. rewrite Nat2Z.inj_div. change (Z.of_nat 10) with 10%Z.
  apply Z.div_lt_upper_bound; [lia|]. rewrite Nat2Z.inj_succ in Hn. lia.
Qed.

Lemma decimal_spec (n : nat) :
  forallb is_digit (decimal n) = true /\ decimal_value (decimal n) = Z.of_nat n /\
  decimal n <> [] /\ (hd 0 (decimal n) = 48 -> n = 0%nat).
Proof. apply (decimal_go_spec n (S n)). lia. Qed.

Lemma decimal_value_zeros (k : nat) (d : rstr) : decimal_value (repeat 48 k ++ d) = decimal_value d.
Proof.
  unfold decimal_value. rewrite fold_left_app. f_equal.
  induction k as [|k IH]; [reflexivity|]. cbn [repeat fold_left].
  replace (0 * 10 + (48 - 48)) with 0 by lia. exact IH.
Qed.

Lemma forallb_repeat {A} (f : A -> bool) (x : A) (k : nat) :
  f x = true -> forallb f (repeat x k) = true.
Proof. intros H. induction k as [|k IH]; [reflexivity|]. cbn. rewrite H, IH. reflexivity. Qed.

Lemma forallb_impl {A} (f g : A -> bool) (l : list A) :
  (forall x, f x = true -> g x = true) -> forallb f l = true -> forallb g l = true.
Proof.
  intros H Hf. apply forallb_forall. intros x Hx. apply H.
  exact (proj1 (forallb_forall f l) Hf x Hx).
Qed.

(** ** Default attachment names *)

Lemma trim_fixed (s : rstr) :
  match s with [] => True | c :: _ => is_whitespace c = false end ->
  match rev s with [] => True | c :: _ => is_whitespace c = false end ->
  trim s = s.
Proof.
  intros H1 H2. unfold trim, trim_matches, trim_end_matches.
  rewrite (trim_start_matches_stable _ _ H1), (trim_start_matches_stable _ _ H2).
  apply rev_involutive.
Qed.

Lemma len_ascii (s : rstr) : forallb (fun c => (0 <=? c) && (c <? 128)) s = true -> len s = length s.
Proof.
  induction s as [|c s IH]; [reflexivity|]. cbn [forallb]. intros H.
  apply andb_true_iff in H as [Hc Hs]. rewrite len_cons, IH by exact Hs.
  apply andb_true_iff in Hc as [_ Hc]. unfold len_utf8, utf8_char. rewrite Hc. reflexivity.
Qed.

Lemma sanitize_chars_id (s : rstr) :
  forallb (fun c => negb ((c =? 92) || (c =? 47) || (c =? 0) || (c =? 13) || (c =? 10))) s = true ->
  sanitize_chars s = s.
Proof.
  induction s as [|c s IH]; [reflexivity|]. cbn [forallb]. intros H.
  apply andb_true_iff in H as [Hc Hs]. unfold sanitize_chars in *. cbn [flat_map].
  rewrite IH by exact Hs.
  destruct (c =? 92), (c =? 47), (c =? 0), (c =? 13), (c =? 10); try discriminate Hc; reflexivity.
Qed.

Lemma default_attachment_name_chars (idx : nat) :
  forallb name_char (default_attachment_name idx) = true.
Proof.
  unfold default_attachment_name. rewrite !forallb_app.
  assert (Hd : forallb name_char (decimal idx) = true).
  { apply (forallb_impl is_digit); [|exact (proj1 (decimal_spec idx))].
    intros x Hx. unfold name_char. rewrite Hx. destruct (x =? 45), (x =? 46); reflexivity. }
  rewrite forallb_repeat, Hd by reflexivity. reflexivity.
Qed.

Lemma name_char_range (x : rchar) :
  name_char x = true -> x = 45 \/ x = 46 \/ (48 <= x <= 57) \/ (97 <= x <= 122).
Proof.
  unfold name_char, is_digit. intros H.
  repeat (apply orb_true_iff in H as [H|H]);
    try (apply Z.eqb_eq in H; lia);
    apply andb_true_iff in H as [H1 H2]; apply Z.leb_le in H1, H2; lia.
Qed.

Lemma sanitize_default_name (idx : nat) (fb : rstr) :
  (Z.of_nat idx < 2 ^ 64)%Z ->
  sanitize_filename (default_attachment_name idx) fb = Some (default_attachment_name idx).
Proof.
  intros Hidx. pose proof (default_attachment_name_chars idx) as Hc.
  assert (Ht : trim (default_attachment_name idx) = default_attachment_name idx).
  { apply trim_fixed; [exact eq_refl|]. unfold default_attachment_name.
    rewrite !rev_app_distr. exact eq_refl. }
  assert (Hs : sanitize_chars (default_attachment_name idx) = default_attachment_name idx).
  { apply sanitize_chars_id. revert Hc. apply forallb_impl. intros x Hx.
    destruct (name_char_range x Hx) as [E|[E|[E|E]]];
      repeat rewrite (proj2 (Z.eqb_neq x _)) by lia; reflexivity. }
  assert (Hl : len (default_attachment_name idx) = length (default_attachment_name idx)).
  { apply len_ascii. revert Hc. apply forallb_impl. intros x Hx.
    destruct (name_char_range x Hx) as [E|[E|[E|E]]];
      (apply andb_true_iff; split; [apply Z.leb_le | apply Z.ltb_lt]; lia). }
  assert (Hd : (length (decimal idx) <= 20)%nat).
  { apply decimal_length; [lia|]. change (10 ^ Z.of_nat 20)%Z with 100000000000000000000%Z.
    lia. }
  assert (Hlen : (length (default_attachment_name idx) <= 200)%nat).
  { unfold default_attachment_name. rewrite !length_app, repeat_length.
    change (length (of_string "attachment-")) with 11%nat.
    change (length (of_string ".bin")) with 4%nat. lia. }
  unfold sanitize_filename. cbv zeta. rewrite Ht.
  replace (is_empty (default_attachment_name idx)) with false by exact eq_refl.
  rewrite replace_chain_sanitize_chars, Hs, Hl.
  destruct (Nat.ltb_spec 200 (length (default_attachment_name idx))); [lia | reflexivity].
Qed.

(** ** Extra properties (attachment names) *)

(** [format!("attachment-{:03}.bin", n)]: the default name is
    [attachment-], then at least three decimal digits whose value is [n]
    (zero-padded to three, with no leading zero beyond the padding), then
    [.bin]. *)
Theorem default_attachment_name_format (n : nat) :
  exists ds,
    default_attachment_name n = of_string "attachment-" ++ ds ++ of_string ".bin" /\
    length ds = Nat.max 3 (length (decimal n)) /\
    forallb is_digit ds = true /\
    decimal_value ds = Z.of_nat n /\
    ((3 < length ds)%nat -> hd 0 ds <> 48).
Proof.
  destruct (decimal_spec n) as (D1 & D2 & D3 & D4).
  exists (repeat 48 (3 - length (decimal n)) ++ decimal n).
  split; [unfold default_attachment_name; rewrite <- app_assoc; reflexivity|].
  split; [rewrite length_app, repeat_length; unfold rstr, rchar in *; lia|].
  split; [unfold rstr, rchar in *; rewrite forallb_app, forallb_repeat, D1 by reflexivity; reflexivity|].
  split; [rewrite decimal_value_zeros; exact D2|].
  rewrite length_app, repeat_length. intros Hl. set (L := length (decimal n)) in *.
  set (L2 := @length Z (decimal n)) in *. change L2 with L in *.
  assert (E0 : (3 - L)%nat = 0%nat) by lia. rewrite E0. cbn [repeat app].
  intros E. specialize (D4 E). subst n. unfold L in Hl. cbn in Hl. lia.
Qed.

(** A part without a file name whose raw body is non-empty is recorded
    under its default name [attachment-NNN.bin], which both passes of
    [sanitize_filename] leave unchanged, with the body length as its size
    (for any index a [usize] can hold). *)
Theorem attachment_step_default_name (part : mail) (idx : nat) (content : list Z)
  (Hname : parse_filename_from_headers part = None)
  (Hbody : get_body_raw part = Some content)
  (Hne : content <> [])
  (Hidx : (Z.of_nat idx < 2 ^ 64)%Z) :
  exists r, attachment_step part idx = AttRecord r /\
            filename r = default_attachment_name idx /\
            file_size_bytes r = length content.
Proof.
  unfold attachment_step. rewrite Hbody. destruct content as [|b0 bs]; [contradiction|].
  cbv zeta. rewrite Hname, !sanitize_default_name by exact Hidx.
  eexists. split; [reflexivity|]. split; reflexivity.
Qed.

(** Witness: a PDF part without a name, at index 7. *)
Lemma attachment_step_default_name_witness :
  exists r, attachment_step
              (Mail [] (of_string "application/pdf") None (Some [37; 80; 68; 70]) []) 7 =
            AttRecord r /\ filename r = default_attachment_name 7 /\
            file_size_bytes r = length [37; 80; 68; 70].
Proof.
  apply (attachment_step_default_name _ 7 [37; 80; 68; 70]);
    [reflexivity | reflexivity | discriminate | lia].
Defined.


(** ** mbox detection and splitting *)

Lemma skipn_nth_cons {A} (l : list A) (i : nat) (d : A) :
  (i < length l)%nat -> skipn i l = nth i l d :: skipn (S i) l.
Proof.
  revert i. induction l as [|x l IH]; intros i Hi; [cbn in Hi; lia|].
  destruct i as [|i]; [reflexivity|]. cbn [skipn nth]. apply IH. cbn in Hi. lia.
Qed.

Lemma starts_with_firstn (s p : rstr) : starts_with s p = true -> firstn (length p) s = p.
Proof.
  revert s. induction p as [|c p IH]; intros s H; [reflexivity|].
  destruct s as [|d s]; [discriminate|]. cbn [starts_with] in H.
  apply andb_true_iff in H as [H1 H2]. apply Z.eqb_eq in H1. subst d.
  cbn [length firstn]. rewrite (IH s H2). reflexivity.
Qed.



Lemma filter_none {A} (f : A -> bool) (l : list A) :
  (forall x, In x l -> f x = false) -> filter f l = [].
Proof.
  induction l as [|a l IH]; intros H; [reflexivity|]. cbn [filter].
  rewrite (H a (or_introl eq_refl)). apply IH. intros x Hx. apply H. right. exact Hx.
Qed.

(** ** Extra properties (input files) *)

(** A blob that [looks_like_mbox] rejects is not split: [split_mbox]
    returns it whole. *)
Theorem split_mbox_non_mbox (buf : list Z) :
  looks_like_mbox buf = false -> split_mbox buf = [buf].
Proof.
  unfold looks_like_mbox. intros H. apply orb_false_iff in H as [Hs Hw].
  assert (Hf : filter (fun i => (nth i buf 0 =? 10) && starts_with (skipn (S i) buf) from_marker)
                      (seq 0 (length buf - 6)) = []).
  { apply filter_none. intros i Hi. apply in_seq in Hi.
    destruct (Z.eqb_spec (nth i buf 0) 10) as [E|E]; [|reflexivity]. cbn [andb].
    destruct (starts_with (skipn (S i) buf) from_marker) eqn:Em; [|reflexivity].
    exfalso. revert Hw. apply not_false_iff_true. apply existsb_exists.
    exists (firstn 6 (skipn i buf)). split.
    - unfold windows. destruct (Nat.ltb_spec (length buf) 6); [lia|].
      apply in_map_iff. exists i. split; [reflexivity|]. apply in_seq. lia.
    - rewrite (skipn_nth_cons buf i 0) by lia. rewrite E.
      change (firstn 6 (10 :: skipn (S i) buf)) with (10 :: firstn (length from_marker) (skipn (S i) buf)).
      pose proof (starts_with_firstn _ _ Em) as F. unfold rstr, rchar in F. rewrite F.
      reflexivity. }
  unfold split_mbox. cbv zeta. rewrite Hs, Hf. reflexivity.
Qed.

(** Witness: a blob starting with a header line. *)
Lemma split_mbox_non_mbox_witness :
  looks_like_mbox (of_string "Subject: hi") = false /\
  split_mbox (of_string "Subject: hi") = [of_string "Subject: hi"].
Proof.
  assert (H : looks_like_mbox (of_string "Subject: hi") = false) by (vm_compute; reflexivity).
  split; [exact H | exact (split_mbox_non_mbox _ H)].
Defined.




(** ** Storage keys *)

Lemma split_on_app_sep (c : rchar) (x y : rstr) :
  split_on c (x ++ c :: y) = split_on c x ++ split_on c y.
Proof.
  induction x as [|d x IH]; cbn [app split_on]; [rewrite Z.eqb_refl; reflexivity|].
  rewrite IH. destruct (d =? c); [reflexivity|].
  destruct (split_on c x) as [|z zs] eqn:E; [exfalso; exact (split_on_not_nil c x E)|].
  reflexivity.
Qed.

Lemma hex_of_in (bs : list Z) (c : rchar) :
  (forall b, In b bs -> 0 <= b < 256) -> In c (hex_of bs) -> is_lower_hex c = true.
Proof.
  intros H Hc. destruct (hex_of_spec bs H) as (_ & F & _).
  exact (proj1 (forallb_forall _ _) F c Hc).
Qed.

Lemma uuid_to_string_no_slash (seed : rstr) : ~ In 47 (uuid_to_string (stable_uuid seed)).
Proof.
  destruct (stable_uuid_bytes seed) as (_ & Hr & _).
  assert (Hx : forall l, (forall x, In x l -> In x (stable_uuid seed)) -> ~ In 47 (hex_of l)).
  { intros l Hl H. assert (E : is_lower_hex 47 = true)
      by (apply (hex_of_in l); [intros b Hb; apply Hr, Hl, Hb | exact H]).
    discriminate E. }
  unfold uuid_to_string. intros H. rewrite !in_app_iff in H.
  repeat match goal with H : _ \/ _ |- _ => destruct H as [H|H] end;
    (first [destruct H as [E|[]]; discriminate E
           | refine (Hx _ _ H); intros x Hx';
             first [apply (in_firstn_l _ _ _ Hx') |
                    apply (in_skipn_l _ _ _ (in_firstn_l _ _ _ Hx')) |
                    apply (in_skipn_l _ _ _ Hx')]]).
Qed.

Lemma sanitize_filename_no_slash (value fallback r : rstr) :
  sanitize_filename value fallback = Some r -> ~ In 47 r.
Proof.
  unfold sanitize_filename. cbv zeta. rewrite replace_chain_sanitize_chars.
  set (n := sanitize_chars _). intros H Hr.
  assert (Hn : In 47 n).
  { destruct (Nat.ltb 200 (len n)); [|injection H as <-; exact Hr].
    unfold truncate in H. destruct (Nat.leb (len n) 200); [injection H as <-; exact Hr|].
    destruct (char_index n 200) as [k|]; [|discriminate]. injection H as <-.
    exact (in_firstn_l _ _ _ Hr). }
  destruct (sanitize_chars_safe _ _ Hn) as (_ & E & _). apply E. reflexivity.
Qed.

(** ** Extra properties (storage keys) *)

(** The S3 key of an attachment never starts with [/], and splitting it at
    [/] gives the segments of the trimmed prefix followed directly by
    [attachments] (no separator is added when the prefix lacks a trailing
    [/]), then the message id, then [<attachment id>__<safe name>]: the
    sanitized name cannot add a level to the key. *)
Theorem attachment_key_layout (output_prefix seed_email seed_att filename fb safe_name : rstr)
  (Hsafe : sanitize_filename filename fb = Some safe_name) :
  let id := uuid_to_string (stable_uuid seed_email) in
  let attachment_id := uuid_to_string (stable_uuid seed_att) in
  let key := attachment_key output_prefix id attachment_id safe_name in
  split_on 47 key =
    split_on 47 (trim_start_matches (is_char 47) output_prefix ++ of_string "attachments") ++
    [id; attachment_id ++ of_string "__" ++ safe_name] /\
  match key with [] => True | c :: _ => c <> 47 end.
Proof.
  intros id attachment_id key. split.
  - unfold key, attachment_key. cbv zeta.
    replace (of_string "attachments/") with (of_string "attachments" ++ [47]) by reflexivity.
    rewrite <- !app_assoc. cbn [app]. rewrite app_assoc, split_on_app_sep, split_on_app_sep.
    rewrite (split_on_absent _ id) by apply uuid_to_string_no_slash.
    rewrite (split_on_absent _ (attachment_id ++ _)); [reflexivity|].
    intros H. apply in_app_or in H as [H|H]; [exact (uuid_to_string_no_slash _ H)|].
    apply in_app_or in H as [[E|[E|[]]]|H]; [discriminate E | discriminate E|].
    exact (sanitize_filename_no_slash _ _ _ Hsafe H).
  - unfold key, attachment_key. cbv zeta.
    pose proof (trim_start_matches_head (is_char 47) output_prefix) as Hh.
    destruct (trim_start_matches (is_char 47) output_prefix) as [|c p]; [discriminate|].
    cbn [app]. intros E. subst c. discriminate Hh.
Qed.

(** Witness: a prefix with a leading [/] and a plain file name. *)
Lemma attachment_key_layout_witness :
  sanitize_filename (of_string "x.pdf") (of_string "attachment.bin") = Some (of_string "x.pdf") /\
  split_on 47 (attachment_key (of_string "/exports/") (uuid_to_string (stable_uuid (of_string "e")))
                 (uuid_to_string (stable_uuid (of_string "a"))) (of_string "x.pdf")) =
    split_on 47 (trim_start_matches (is_char 47) (of_string "/exports/") ++ of_string "attachments") ++
    [uuid_to_string (stable_uuid (of_string "e"));
     uuid_to_string (stable_uuid (of_string "a")) ++ of_string "__" ++ of_string "x.pdf"] /\
  match attachment_key (of_string "/exports/") (uuid_to_string (stable_uuid (of_string "e")))
          (uuid_to_string (stable_uuid (of_string "a"))) (of_string "x.pdf") with
  | [] => True | c :: _ => c <> 47 end.
Proof.
  assert (H : sanitize_filename (of_string "x.pdf") (of_string "attachment.bin") = Some (of_string "x.pdf"))
    by (vm_compute; reflexivity).
  split; [exact H | exact (attachment_key_layout (of_string "/exports/") (of_string "e") (of_string "a") _ _ _ H)].
Defined.


(** ** Sanitizing twice *)

Lemma len_skipn_le (k : nat) (s : rstr) : (len (skipn k s) <= len s)%nat.
Proof. pose proof (len_app (firstn k s) (skipn k s)) as F. rewrite firstn_skipn in F. lia. Qed.

Lemma len_rev (s : rstr) : len (rev s) = len s.
Proof.
  induction s as [|c s IH]; [reflexivity|]. cbn [rev]. rewrite len_app, IH, !len_cons.
  change (len []) with 0%nat. lia.
Qed.

Lemma len_trim_le (s : rstr) : (len (trim s) <= len s)%nat.
Proof.
  unfold trim, trim_matches, trim_end_matches.
  destruct (trim_start_matches_skipn is_whitespace s) as [j ->].
  destruct (trim_start_matches_skipn is_whitespace (rev (skipn j s))) as [k ->].
  rewrite len_rev. pose proof (len_skipn_le k (rev (skipn j s))). rewrite len_rev in H.
  pose proof (len_skipn_le j s). lia.
Qed.

Lemma sanitize_filename_chars (value fallback r : rstr) :
  sanitize_filename value fallback = Some r ->
  forall c, In c r -> c <> 92 /\ c <> 47 /\ c <> 0 /\ c <> 13 /\ c <> 10.
Proof.
  unfold sanitize_filename. cbv zeta. rewrite replace_chain_sanitize_chars.
  set (n := sanitize_chars _). intros H c Hr. apply (sanitize_chars_safe (if is_empty (trim value) then fallback else trim value)).
  fold n. destruct (Nat.ltb 200 (len n)); [|injection H as <-; exact Hr].
  unfold truncate in H. destruct (Nat.leb (len n) 200); [injection H as <-; exact Hr|].
  destruct (char_index n 200) as [k|]; [|discriminate]. injection H as <-.
  exact (in_firstn_l _ _ _ Hr).
Qed.

Lemma sanitize_filename_len (value fallback r : rstr) :
  sanitize_filename value fallback = Some r -> (len r <= 200)%nat.
Proof.
  unfold sanitize_filename. cbv zeta. set (n := replace_char 10 [] _). intros H.
  destruct (Nat.ltb_spec 200 (len n)); [|injection H as <-; lia].
  unfold truncate in H. destruct (Nat.leb_spec (len n) 200); [lia|].
  destruct (char_index n 200) as [k|] eqn:E; [|discriminate]. injection H as <-.
  destruct (char_index_prefix _ _ _ E) as [_ Hl]. lia.
Qed.

Lemma sanitize_chars_id_in (s : rstr) :
  (forall c, In c s -> c <> 92 /\ c <> 47 /\ c <> 0 /\ c <> 13 /\ c <> 10) -> sanitize_chars s = s.
Proof.
  intros H. apply sanitize_chars_id, forallb_forall. intros c Hc.
  destruct (H c Hc) as (H1 & H2 & H3 & H4 & H5).
  rewrite (proj2 (Z.eqb_neq _ _) H1), (proj2 (Z.eqb_neq _ _) H2), (proj2 (Z.eqb_neq _ _) H3),
    (proj2 (Z.eqb_neq _ _) H4), (proj2 (Z.eqb_neq _ _) H5). reflexivity.
Qed.

(** ** Extra properties (file names) *)

(** [main] sanitizes the file name a second time for the storage key. That
    second pass only trims: it returns the trimmed first result, or
    [attachment.bin] when that is blank. So the key name can differ from
    the recorded [filename], for instance when removing a NUL leaves
    trailing whitespace. *)
Theorem sanitize_filename_twice (value fallback n : rstr) :
  sanitize_filename value fallback = Some n ->
  sanitize_filename n (of_string "attachment.bin") =
  Some (if is_empty (trim n) then of_string "attachment.bin" else trim n).
Proof.
  intros H. pose proof (sanitize_filename_chars _ _ _ H) as Hc.
  pose proof (sanitize_filename_len _ _ _ H) as Hl.
  unfold sanitize_filename at 1. cbv zeta. rewrite replace_chain_sanitize_chars.
  destruct (is_empty (trim n)) eqn:Ee; [reflexivity|].
  rewrite sanitize_chars_id_in by (intros c Hc'; apply Hc, trim_in, Hc').
  pose proof (len_trim_le n).
  destruct (Nat.ltb_spec 200 (len (trim n))); [lia | reflexivity].
Qed.

(** Witness: ["x \0"] is recorded as ["x "] and stored as ["x"]. *)
Lemma sanitize_filename_twice_witness :
  sanitize_filename [120; 32; 0] (of_string "attachment.bin") = Some [120; 32] /\
  sanitize_filename [120; 32] (of_string "attachment.bin") =
  Some (if is_empty (trim [120; 32]) then of_string "attachment.bin" else trim [120; 32]).
Proof.
  assert (H : sanitize_filename [120; 32; 0] (of_string "attachment.bin") = Some [120; 32])
    by (vm_compute; reflexivity).
  split; [exact H | exact (sanitize_filename_twice _ _ _ H)].
Defined.
